(** * levee-go: the streaming chat bridge

    A shallow embedding of the LLM part of the levee Go SDK:

    - [llm.go]: the transport connector ([LLMClient.connect]), the streaming
      session ([ChatSession.Send], [Abort], [Close]) and the convenience
      call [LLMClient.ChatStream];
    - [client_compat.go] (second part, the former [ws.go]): the WebSocket
      relay session ([wsSession.handleStart], [handleMessage], ...).

    The gRPC stream, the network and the socket are external objects.  They
    are modelled as explicit state: a stream is a script of what its
    successive [Recv] calls deliver together with a log of every call made
    on it, so that "no transport I/O" is the statement that the log did not
    grow.  The mutexes ([mu], [sendMu]) make every method body atomic; the
    model runs one method at a time and has no other trace of them. *)

From Stdlib Require Import String Ascii List ZArith Bool Lia.
From Stdlib Require Import Floats.PrimFloat DecimalString.
Import ListNotations.
Local Open Scope string_scope.
Local Open Scope list_scope.

(** ** Go values *)

(** A Go [error] as built by [errors.New] / [fmt.Errorf]: a text, or a text
    wrapping an inner error ([%w]). *)
Inductive error : Type :=
| errorString (text : string)
| wrapError (text : string) (inner : error).

(** The [Error()] method. *)
Fixpoint Error (e : error) : string :=
  match e with
  | errorString t => t
  | wrapError t inner => t ++ Error inner
  end.

(** A Go [(T, error)] result: [(v, nil)] or [(nil, err)]. *)
Inductive result (A : Type) : Type :=
| Ok (a : A)
| Err (e : error).
Arguments Ok {A} a.
Arguments Err {A} e.

Definition int32 := Z.
Definition int64 := Z.
Definition float32 := float.
Definition float64 := float.

(** [%d] of [fmt.Sprintf]. *)
Definition fmt_d (n : Z) : string := NilZero.string_of_int (Z.to_int n).

(** ** The wire messages (package [llmpb], generated from [llm.proto])

    Only the fields the SDK reads or writes are kept. *)
Module llmpb.

Record Message := { msg_Role : string; msg_Content : string }.

Record StartChatRequest := {
  start_ApiKey : string;
  start_SystemPrompt : string;
  start_Model : string;
  start_MaxTokens : int32;
  start_Temperature : float32;
  start_Messages : list Message
}.

Record UserMessage := { user_Content : string }.
Record AbortRequest := { abort_Reason : string }.
Record ToolResult := {
  result_ToolCallId : string; result_Result : string; result_IsError : bool
}.

(** Client to backend: the [Request] oneof of [llmpb.ChatRequest]. *)
Inductive ChatRequest : Type :=
| ChatRequest_Start (r : StartChatRequest)
| ChatRequest_Message (r : UserMessage)
| ChatRequest_Abort (r : AbortRequest)
| ChatRequest_ToolResult (r : ToolResult).

Record SessionStarted := {
  started_SessionId : string; started_Provider : string; started_Model : string
}.
Record ChunkResponse := { chunk_Content : string; chunk_Index : int32 }.
Record ToolCall := {
  call_ToolCallId : string; call_Name : string; call_ArgumentsJson : string
}.
Record CompletionResponse := {
  FullContent : string;
  StopReason : string;
  InputTokens : int64;
  OutputTokens : int64;
  CostUsd : float64;
  LatencyMs : int64
}.
Record ErrorResponse := {
  error_Code : string; error_Message : string; error_Retryable : bool
}.
Record AbortedResponse := { aborted_Reason : string }.

(** Backend to client: the [Response] oneof of [llmpb.ChatResponse];
    [ChatResponse_unset] is a response with no variant set. *)
Inductive ChatResponse : Type :=
| ChatResponse_SessionStarted (r : SessionStarted)
| ChatResponse_Chunk (r : ChunkResponse)
| ChatResponse_ToolCall (r : ToolCall)
| ChatResponse_Completion (r : CompletionResponse)
| ChatResponse_Error (r : ErrorResponse)
| ChatResponse_Aborted (r : AbortedResponse)
| ChatResponse_unset.

End llmpb.

(** ** The bidirectional stream ([llmpb.LLMService_ChatClient]) *)

Inductive StreamCall : Type :=
| CallSend (m : llmpb.ChatRequest)
| CallRecv
| CallCloseSend.

(** What one [Recv] delivers: a message or a transport error.  End of
    stream ([io.EOF]) is the exhausted [inbox].  A [Recv] of the model never
    waits: a backend that keeps the stream open and stays silent is outside
    it. *)
Inductive Delivery : Type :=
| Deliver (r : llmpb.ChatResponse)
| TransportError (e : error).

Inductive RecvResult : Type :=
| RecvMsg (r : llmpb.ChatResponse)
| RecvErr (e : error)
| RecvEOF.

Record ChatClient := {
  calls : list StreamCall;          (* every call made on the stream, in order *)
  inbox : list Delivery;            (* what the backend has still to deliver *)
  sendErrs : list (option error);   (* outcome of the coming Send calls; exhausted: nil *)
  closeErr : option error           (* outcome of CloseSend *)
}.

Definition logCall (c : StreamCall) (st : ChatClient) : ChatClient :=
  {| calls := calls st ++ [c]; inbox := inbox st;
     sendErrs := sendErrs st; closeErr := closeErr st |}.

Definition stream_Send (st : ChatClient) (m : llmpb.ChatRequest)
  : ChatClient * option error :=
  let st' := logCall (CallSend m) st in
  match sendErrs st with
  | [] => (st', None)
  | o :: rest =>
      ({| calls := calls st'; inbox := inbox st';
          sendErrs := rest; closeErr := closeErr st' |}, o)
  end.

Definition stream_Recv (st : ChatClient) : ChatClient * RecvResult :=
  let st' := logCall CallRecv st in
  match inbox st with
  | [] => (st', RecvEOF)
  | d :: rest =>
      ({| calls := calls st'; inbox := rest;
          sendErrs := sendErrs st'; closeErr := closeErr st' |},
       match d with Deliver r => RecvMsg r | TransportError e => RecvErr e end)
  end.

Definition stream_CloseSend (st : ChatClient) : ChatClient * option error :=
  (logCall CallCloseSend st, closeErr st).

(** The messages handed to [Send] on a stream so far. *)
Definition transmitted (st : ChatClient) : list llmpb.ChatRequest :=
  flat_map (fun c => match c with CallSend m => [m] | _ => [] end) (calls st).

(** ** The message model of [llm.go] *)

Record ChatMessage := { ChatMessage_Role : string; ChatMessage_Content : string }.

Record ChatRequest := {
  Messages : list ChatMessage;
  SystemPrompt : string;
  Model : string;
  MaxTokens : int32;
  Temperature : float32
}.

Record ChatResponse := {
  Content : string;
  ChatResponse_Model : string;
  InputTokens : int64;
  OutputTokens : int64;
  CostUSD : float64;
  LatencyMs : int64;
  StopReason : string
}.

Record StreamChunk := { StreamChunk_Content : string; Index : int32 }.

(** [StreamCallback]: a Go closure.  It may fail, and it may change the
    caller's own state, of type [W]; [None] is the nil callback. *)
Definition StreamCallback (W : Type) : Type :=
  option (StreamChunk -> W -> W * option error).

(** ** The streaming session *)

Record ChatSession := {
  stream : ChatClient;
  apiKey : string;
  done : bool
}.

Definition withStream (s : ChatSession) (st : ChatClient) : ChatSession :=
  {| stream := st; apiKey := apiKey s; done := done s |}.

Section Session.
Variable W : Type.

(** The variables of [Send]'s receive loop, the caller's state, and the
    log of the callback's invocations. *)
Record Turn := {
  t_stream : ChatClient;
  t_fullContent : string;
  t_completion : option llmpb.CompletionResponse;
  t_world : W;
  t_invoked : list StreamChunk
}.

Inductive Flow : Type :=
| Continue                 (* next iteration *)
| Break                    (* [break]: go on after the loop *)
| Return (e : error).      (* [return nil, err] *)

(** One iteration of [for { ... }] in [Send]. *)
Definition recvStep (callback : StreamCallback W) (t : Turn) : Turn * Flow :=
  let '(st, r) := stream_Recv (t_stream t) in
  let t := {| t_stream := st; t_fullContent := t_fullContent t;
              t_completion := t_completion t; t_world := t_world t;
              t_invoked := t_invoked t |} in
  match r with
  | RecvEOF => (t, Break)
  | RecvErr e => (t, Return (wrapError "stream receive error: " e))
  | RecvMsg resp =>
      let '(t, ret) :=
        match resp with
        | llmpb.ChatResponse_SessionStarted _ => (t, None)
        | llmpb.ChatResponse_Chunk r =>
            let t := {| t_stream := t_stream t;
                        t_fullContent := t_fullContent t ++ llmpb.chunk_Content r;
                        t_completion := t_completion t; t_world := t_world t;
                        t_invoked := t_invoked t |} in
            match callback with
            | None => (t, None)
            | Some cb =>
                let chunk := {| StreamChunk_Content := llmpb.chunk_Content r;
                                Index := llmpb.chunk_Index r |} in
                let '(w, err) := cb chunk (t_world t) in
                ({| t_stream := t_stream t; t_fullContent := t_fullContent t;
                    t_completion := t_completion t; t_world := w;
                    t_invoked := t_invoked t ++ [chunk] |}, err)
            end
        | llmpb.ChatResponse_Completion r =>
            ({| t_stream := t_stream t; t_fullContent := t_fullContent t;
                t_completion := Some r; t_world := t_world t;
                t_invoked := t_invoked t |}, None)
        | llmpb.ChatResponse_Error r =>
            (t, Some (errorString ("LLM error: " ++ llmpb.error_Message r)))
        | llmpb.ChatResponse_Aborted r =>
            (t, Some (errorString ("generation aborted: " ++ llmpb.aborted_Reason r)))
        | llmpb.ChatResponse_ToolCall _ => (t, None)
        | llmpb.ChatResponse_unset => (t, None)
        end in
      match ret with
      | Some e => (t, Return e)
      | None =>
          match t_completion t with
          | Some _ => (t, Break)
          | None => (t, Continue)
          end
      end
  end.

(** The loop.  Every iteration that continues has taken one delivery off
    the stream, so [S (length inbox)] iterations are enough; [None] is the
    loop still running when the fuel is gone. *)
Fixpoint recvLoop (fuel : nat) (callback : StreamCallback W) (t : Turn)
  : Turn * option Flow :=
  match fuel with
  | O => (t, None)
  | S fuel =>
      match recvStep callback t with
      | (t', Continue) => recvLoop fuel callback t'
      | (t', flow) => (t', Some flow)
      end
  end.

Definition runLoop (callback : StreamCallback W) (t : Turn) : Turn * option Flow :=
  recvLoop (S (length (inbox (t_stream t)))) callback t.

(** What a call leaves behind and what it returns; [returned = None] is a
    call that has not returned, which [Send_returns] below rules out. *)
Record Outcome (A : Type) := {
  session : ChatSession;
  world : W;
  invoked : list StreamChunk;
  returned : option (result A)
}.
Arguments session {A} _.
Arguments world {A} _.
Arguments invoked {A} _.
Arguments returned {A} _.

(** The code of [Send] after its loop. *)
Definition afterLoop (t : Turn) : ChatResponse :=
  match t_completion t with
  | None =>
      {| Content := t_fullContent t; ChatResponse_Model := "";
         InputTokens := 0%Z; OutputTokens := 0%Z;
         CostUSD := 0%float; LatencyMs := 0%Z; StopReason := "" |}
  | Some completion =>
      {| Content := llmpb.FullContent completion;
         ChatResponse_Model := "";
         InputTokens := llmpb.InputTokens completion;
         OutputTokens := llmpb.OutputTokens completion;
         CostUSD := llmpb.CostUsd completion;
         LatencyMs := llmpb.LatencyMs completion;
         StopReason := llmpb.StopReason completion |}
  end.

Definition Send (s : ChatSession) (content : string)
  (callback : StreamCallback W) (w : W) : Outcome ChatResponse :=
  if done s then
    {| session := s; world := w; invoked := [];
       returned := Some (Err (errorString "session is closed")) |}
  else
    let '(st, err) :=
      stream_Send (stream s)
        (llmpb.ChatRequest_Message {| llmpb.user_Content := content |}) in
    match err with
    | Some e =>
        {| session := withStream s st; world := w; invoked := [];
           returned := Some (Err (wrapError "failed to send message: " e)) |}
    | None =>
        let '(t, flow) :=
          runLoop callback
            {| t_stream := st; t_fullContent := ""; t_completion := None;
               t_world := w; t_invoked := [] |} in
        {| session := withStream s (t_stream t); world := t_world t;
           invoked := t_invoked t;
           returned :=
             match flow with
             | Some Break => Some (Ok (afterLoop t))
             | Some (Return e) => Some (Err e)
             | Some Continue | None => None
             end |}
    end.

End Session.

Arguments t_stream {W} _.
Arguments t_fullContent {W} _.
Arguments t_completion {W} _.
Arguments t_world {W} _.
Arguments t_invoked {W} _.
Arguments recvStep {W} callback t.
Arguments recvLoop {W} fuel callback t.
Arguments runLoop {W} callback t.
Arguments afterLoop {W} t.
Arguments session {W A} _.
Arguments world {W A} _.
Arguments invoked {W A} _.
Arguments returned {W A} _.
Arguments Send {W} s content callback w.

(** [Abort]: transmits an abort message.  There is no test of [done]. *)
Definition Abort (s : ChatSession) (reason : string) : ChatSession * option error :=
  let '(st, err) :=
    stream_Send (stream s)
      (llmpb.ChatRequest_Abort {| llmpb.abort_Reason := reason |}) in
  (withStream s st, err).

(** [Close]: sets [done] and closes the send side of the stream. *)
Definition Close (s : ChatSession) : ChatSession * option error :=
  let '(st, err) := stream_CloseSend (stream s) in
  ({| stream := st; apiKey := apiKey s; done := true |}, err).

(** ** The relay's wire protocol ([client_compat.go]) *)

Definition WSMsgTypeStart := "start".
Definition WSMsgTypeMessage := "message".
Definition WSMsgTypeAbort := "abort".
Definition WSMsgTypeChunk := "chunk".
Definition WSMsgTypeCompletion := "completion".
Definition WSMsgTypeError := "error".
Definition WSMsgTypeStarted := "started".
Definition WSMsgTypeToolCall := "tool_call".
Definition WSMsgTypeToolResult := "tool_result".

(** [json.RawMessage]: undecoded JSON text. *)
Definition RawMessage := string.

(** The envelope, as decoded from an inbound frame. *)
Record WSMessage := { WSMessage_Type : string; WSMessage_Data : RawMessage }.

Record WSStartRequest := {
  WSStart_SystemPrompt : string;
  WSStart_Model : string;
  WSStart_MaxTokens : int32;
  WSStart_Temperature : float32;
  WSStart_Messages : list ChatMessage
}.
Record WSUserMessage := { WSUser_Content : string }.
Record WSAbortRequest := { WSAbort_Reason : string }.
Record WSToolResult := {
  WSResult_ToolCallID : string; WSResult_Result : string; WSResult_IsError : bool
}.

Record WSStartedResponse := {
  WSStarted_SessionID : string; WSStarted_Provider : string; WSStarted_Model : string
}.
Record WSChunkResponse := { WSChunk_Content : string; WSChunk_Index : int32 }.
Record WSToolCallResponse := {
  WSCall_ToolCallID : string; WSCall_Name : string; WSCall_ArgumentsJSON : string
}.
Record WSCompletionResponse := {
  WSCompletion_FullContent : string;
  WSCompletion_StopReason : string;
  WSCompletion_InputTokens : int64;
  WSCompletion_OutputTokens : int64;
  WSCompletion_CostUSD : float64;
  WSCompletion_LatencyMs : int64
}.
Record WSErrorResponse := { Code : string; Message : string; Retryable : bool }.

(** The [data interface{}] argument of [wsSession.send]. *)
Inductive WSData : Type :=
| DataStarted (r : WSStartedResponse)
| DataChunk (r : WSChunkResponse)
| DataToolCall (r : WSToolCallResponse)
| DataCompletion (r : WSCompletionResponse)
| DataError (r : WSErrorResponse).

(** An outbound frame: the envelope handed to [conn.WriteMessage], before
    its encoding as JSON text. *)
Record WSFrame := { frame_Type : string; frame_Data : WSData }.

(** ** The libraries the SDK calls

    [net/url], [net/http] and [encoding/json] are taken as they are: pure
    functions of their input. *)

Record llmConfigResponse := {
  Available : bool;
  GRPCPort : Z;
  DefaultProvider : string;
  ConfiguredProviders : list string
}.

Class GoLib := {
  (* url.Parse(s), then Hostname() of the result *)
  url_Hostname : string -> result string;
  (* http.NewRequestWithContext(ctx, GET, url, nil): nil, or the error *)
  http_NewRequest : string -> option error;
  (* json.NewDecoder(body).Decode(&config) *)
  json_llmConfigResponse : string -> result llmConfigResponse;
  (* json.Unmarshal(text, &v) at the types of the relay *)
  json_WSMessage : string -> result WSMessage;
  json_WSStartRequest : RawMessage -> result WSStartRequest;
  json_WSUserMessage : RawMessage -> result WSUserMessage;
  json_WSToolResult : RawMessage -> result WSToolResult;
  (* the same at WSAbortRequest, whose caller drops the error and goes on
     with the value as Unmarshal left it *)
  json_WSAbortRequest : RawMessage -> WSAbortRequest
}.

(** ** The network, as the connector sees it *)

Definition ClientConn := nat.

(** The answer to one GET of [/sdk/v1/llm/config]. *)
Inductive ConfigReply : Type :=
| ConfigDoError (e : error)                  (* httpClient.Do failed *)
| ConfigResponse (status : Z) (body : string).

Record Net := {
  configReply : nat -> ConfigReply;       (* the answer to the n-th lookup *)
  dialReply : nat -> option error;        (* grpc.NewClient, n-th call *)
  chatReply : nat -> result ChatClient;   (* client.Chat(ctx), n-th call *)
  lookups : list (string * string);       (* lookups made: URL, X-API-Key *)
  dials : list (string * bool);           (* grpc.NewClient calls: address, TLS *)
  conns : nat;                            (* connections created *)
  closed : list ClientConn;               (* connections closed *)
  opened : nat                            (* streams asked for *)
}.

(** ** The transport connector *)

Record LLMClient := {
  LLMClient_apiKey : string;
  baseURL : string;
  grpcAddr : string;
  useTLS : bool;
  conn : option ClientConn;
  client : option ClientConn     (* llmpb.NewLLMServiceClient(conn) *)
}.

Section Connector.
Context {lib : GoLib}.

Definition fetchConfig (c : LLMClient) (net : Net) : Net * result llmConfigResponse :=
  if (baseURL c =? "")%string then
    (net, Err (errorString "baseURL is required for auto-discovery"))
  else
    let reqURL := (baseURL c ++ "/sdk/v1/llm/config")%string in
    match http_NewRequest reqURL with
    | Some e => (net, Err (wrapError "failed to create config request: " e))
    | None =>
        let net' :=
          {| configReply := configReply net; dialReply := dialReply net;
             chatReply := chatReply net;
             lookups := lookups net ++ [(reqURL, LLMClient_apiKey c)];
             dials := dials net; conns := conns net; closed := closed net;
             opened := opened net |} in
        match configReply net (length (lookups net)) with
        | ConfigDoError e =>
            (net', Err (wrapError "failed to fetch LLM config: " e))
        | ConfigResponse status body =>
            if negb (status =? 200)%Z then
              (net', Err (errorString ("config request failed with status "
                                        ++ fmt_d status ++ ": " ++ body)))
            else
              match json_llmConfigResponse body with
              | Err e =>
                  (net', Err (wrapError "failed to decode config response: " e))
              | Ok config => (net', Ok config)
              end
        end
    end.

Definition withGrpcAddr (c : LLMClient) (addr : string) : LLMClient :=
  {| LLMClient_apiKey := LLMClient_apiKey c; baseURL := baseURL c;
     grpcAddr := addr; useTLS := useTLS c; conn := conn c; client := client c |}.

(** The "Determine gRPC address" part of [connect]. *)
Definition resolveAddr (c : LLMClient) (net : Net)
  : LLMClient * Net * result string :=
  if (grpcAddr c =? "")%string then
    let '(net, r) := fetchConfig c net in
    match r with
    | Err e =>
        (c, net, Err (wrapError "failed to auto-discover gRPC address: " e))
    | Ok config =>
        if negb (Available config) then
          (c, net,
           Err (errorString "LLM service is not available for this organization"))
        else
          match url_Hostname (baseURL c) with
          | Err e => (c, net, Err (wrapError "failed to parse baseURL: " e))
          | Ok host =>
              let addr := (host ++ ":" ++ fmt_d (GRPCPort config))%string in
              (withGrpcAddr c addr, net, Ok addr)
          end
    end
  else (c, net, Ok (grpcAddr c)).

Definition connect (c : LLMClient) (net : Net) : LLMClient * Net * option error :=
  match conn c with
  | Some _ => (c, net, None)
  | None =>
      let '(c, net, r) := resolveAddr c net in
      match r with
      | Err e => (c, net, Some e)
      | Ok addr =>
          let dialled (created : nat) :=
            {| configReply := configReply net; dialReply := dialReply net;
               chatReply := chatReply net; lookups := lookups net;
               dials := dials net ++ [(addr, useTLS c)];
               conns := created; closed := closed net; opened := opened net |} in
          match dialReply net (length (dials net)) with
          | Some e =>
              (c, dialled (conns net),
               Some (wrapError ("failed to connect to LLM server at " ++ addr ++ ": ") e))
          | None =>
              let h := conns net in
              ({| LLMClient_apiKey := LLMClient_apiKey c; baseURL := baseURL c;
                  grpcAddr := grpcAddr c; useTLS := useTLS c;
                  conn := Some h; client := Some h |},
               dialled (S (conns net)), None)
          end
      end
  end.

(** [LLMClient.Close]; the error of [conn.Close()] is not modelled. *)
Definition LLMClient_Close (c : LLMClient) (net : Net) : LLMClient * Net :=
  match conn c with
  | Some h =>
      ({| LLMClient_apiKey := LLMClient_apiKey c; baseURL := baseURL c;
          grpcAddr := grpcAddr c; useTLS := useTLS c;
          conn := None; client := None |},
       {| configReply := configReply net; dialReply := dialReply net;
          chatReply := chatReply net; lookups := lookups net;
          dials := dials net; conns := conns net;
          closed := closed net ++ [h]; opened := opened net |})
  | None => (c, net)
  end.

(** [c.client.Chat(ctx)]: asks the backend for a new stream. *)
Definition client_Chat (net : Net) : Net * result ChatClient :=
  ({| configReply := configReply net; dialReply := dialReply net;
      chatReply := chatReply net; lookups := lookups net;
      dials := dials net; conns := conns net; closed := closed net;
      opened := S (opened net) |},
   chatReply net (opened net)).

(** The "Convert messages" loop. *)
Definition convertMessages (msgs : list ChatMessage) : list llmpb.Message :=
  map (fun msg => {| llmpb.msg_Role := ChatMessage_Role msg;
                     llmpb.msg_Content := ChatMessage_Content msg |}) msgs.

Definition startEnvelope (key : string) (req : ChatRequest) : llmpb.ChatRequest :=
  llmpb.ChatRequest_Start
    {| llmpb.start_ApiKey := key;
       llmpb.start_SystemPrompt := SystemPrompt req;
       llmpb.start_Model := Model req;
       llmpb.start_MaxTokens := MaxTokens req;
       llmpb.start_Temperature := Temperature req;
       llmpb.start_Messages := convertMessages (Messages req) |}.

Definition NewChatSession (c : LLMClient) (net : Net) (req : ChatRequest)
  : LLMClient * Net * result ChatSession :=
  let '(c, net, err) := connect c net in
  match err with
  | Some e => (c, net, Err e)
  | None =>
      let '(net, r) := client_Chat net in
      match r with
      | Err e => (c, net, Err (wrapError "failed to start chat session: " e))
      | Ok st =>
          let '(st, err) := stream_Send st (startEnvelope (LLMClient_apiKey c) req) in
          match err with
          | Some e => (c, net, Err (wrapError "failed to send start request: " e))
          | None =>
              (c, net,
               Ok {| stream := st; apiKey := LLMClient_apiKey c; done := false |})
          end
      end
  end.

(** What [ChatStream] leaves behind: the client, the network, the session
    it opened (if it got that far) as [defer session.Close()] left it, the
    caller's state and the callback's invocations. *)
Record Streamed (W : Type) := {
  cs_client : LLMClient;
  cs_net : Net;
  cs_session : option ChatSession;
  cs_world : W;
  cs_invoked : list StreamChunk;
  cs_returned : option (result ChatResponse)
}.
Arguments cs_client {W} _.
Arguments cs_net {W} _.
Arguments cs_session {W} _.
Arguments cs_world {W} _.
Arguments cs_invoked {W} _.
Arguments cs_returned {W} _.

Definition ChatStream {W : Type} (c : LLMClient) (net : Net) (req : ChatRequest)
  (callback : StreamCallback W) (w : W) : Streamed W :=
  let '(c, net, r) :=
    NewChatSession c net
      {| Messages := []; SystemPrompt := SystemPrompt req; Model := Model req;
         MaxTokens := MaxTokens req; Temperature := Temperature req |} in
  match r with
  | Err e =>
      {| cs_client := c; cs_net := net; cs_session := None; cs_world := w;
         cs_invoked := []; cs_returned := Some (Err e) |}
  | Ok session0 =>
      let body : Outcome W ChatResponse :=
        match Messages req with
        | [] =>
            {| session := session0; world := w; invoked := [];
               returned := Some (Err (errorString "at least one message is required")) |}
        | m :: ms =>
            let lastMsg := last ms m in
            if negb (ChatMessage_Role lastMsg =? "user")%string then
              {| session := session0; world := w; invoked := [];
                 returned := Some (Err (errorString "last message must be from user")) |}
            else Send session0 (ChatMessage_Content lastMsg) callback w
        end in
      {| cs_client := c; cs_net := net;
         cs_session := Some (fst (Close (session body)));
         cs_world := world body; cs_invoked := invoked body;
         cs_returned := returned body |}
  end.

End Connector.

Arguments cs_client {W} _.
Arguments cs_net {W} _.
Arguments cs_session {W} _.
Arguments cs_world {W} _.
Arguments cs_invoked {W} _.
Arguments cs_returned {W} _.

(** ** The WebSocket relay session

    [conn] is the socket as its peer sees it: the frames written so far.
    [readers] counts the goroutines started on [readGRPCResponses]; the
    handlers below are the socket-reading side of the relay, which the model
    runs on its own. *)
Record wsSession := {
  ws_conn : list WSFrame;
  llm : LLMClient;
  ws_stream : option ChatClient;
  started : bool;
  readers : nat
}.

(** [json.Marshal(data)] fails on a float that is not finite and on nothing
    else these payloads hold. *)
Definition marshals (data : WSData) : bool :=
  match data with
  | DataCompletion r => is_finite (WSCompletion_CostUSD r)
  | _ => true
  end.

(** [send]: one [conn.WriteMessage], or none when the payload does not
    marshal. *)
Definition send (s : wsSession) (msgType : string) (data : WSData) : wsSession :=
  if marshals data then
    {| ws_conn := ws_conn s ++ [{| frame_Type := msgType; frame_Data := data |}];
       llm := llm s; ws_stream := ws_stream s; started := started s;
       readers := readers s |}
  else s.

Definition sendError (s : wsSession) (code message : string) (retryable : bool)
  : wsSession :=
  send s WSMsgTypeError
    (DataError {| Code := code; Message := message; Retryable := retryable |}).

Definition withBackend (s : wsSession) (st : ChatClient) : wsSession :=
  {| ws_conn := ws_conn s; llm := llm s; ws_stream := Some st;
     started := started s; readers := readers s |}.

(** [!s.started || s.stream == nil] *)
Definition notStarted (s : wsSession) : bool :=
  negb (started s) || match ws_stream s with None => true | Some _ => false end.

(** The switch of [readGRPCResponses], the goroutine that forwards what
    the backend sends: one backend event, one frame.  Its loop runs beside
    the handlers and is not part of the model. *)
Definition relayResponse (s : wsSession) (resp : llmpb.ChatResponse) : wsSession :=
  match resp with
  | llmpb.ChatResponse_SessionStarted r =>
      send s WSMsgTypeStarted
        (DataStarted {| WSStarted_SessionID := llmpb.started_SessionId r;
                        WSStarted_Provider := llmpb.started_Provider r;
                        WSStarted_Model := llmpb.started_Model r |})
  | llmpb.ChatResponse_Chunk r =>
      send s WSMsgTypeChunk
        (DataChunk {| WSChunk_Content := llmpb.chunk_Content r;
                      WSChunk_Index := llmpb.chunk_Index r |})
  | llmpb.ChatResponse_ToolCall r =>
      send s WSMsgTypeToolCall
        (DataToolCall {| WSCall_ToolCallID := llmpb.call_ToolCallId r;
                         WSCall_Name := llmpb.call_Name r;
                         WSCall_ArgumentsJSON := llmpb.call_ArgumentsJson r |})
  | llmpb.ChatResponse_Completion r =>
      send s WSMsgTypeCompletion
        (DataCompletion {| WSCompletion_FullContent := llmpb.FullContent r;
                           WSCompletion_StopReason := llmpb.StopReason r;
                           WSCompletion_InputTokens := llmpb.InputTokens r;
                           WSCompletion_OutputTokens := llmpb.OutputTokens r;
                           WSCompletion_CostUSD := llmpb.CostUsd r;
                           WSCompletion_LatencyMs := llmpb.LatencyMs r |})
  | llmpb.ChatResponse_Error r =>
      send s WSMsgTypeError
        (DataError {| Code := llmpb.error_Code r; Message := llmpb.error_Message r;
                      Retryable := llmpb.error_Retryable r |})
  | llmpb.ChatResponse_Aborted r =>
      send s WSMsgTypeError
        (DataError {| Code := "aborted"; Message := llmpb.aborted_Reason r;
                      Retryable := false |})
  | llmpb.ChatResponse_unset => s
  end.

Section Relay.
Context {lib : GoLib}.

Definition handleStart (s : wsSession) (net : Net) (data : RawMessage)
  : wsSession * Net :=
  if started s then
    (sendError s "already_started" "Session already started" false, net)
  else
    match json_WSStartRequest data with
    | Err _ => (sendError s "invalid_data" "Invalid start request" false, net)
    | Ok req =>
        let '(c, net, err) := connect (llm s) net in
        let s := {| ws_conn := ws_conn s; llm := c; ws_stream := ws_stream s;
                    started := started s; readers := readers s |} in
        match err with
        | Some e => (sendError s "connection_failed" (Error e) true, net)
        | None =>
            let '(net, r) := client_Chat net in
            match r with
            | Err e => (sendError s "stream_failed" (Error e) true, net)
            | Ok st =>
                let '(st, err) :=
                  stream_Send st
                    (startEnvelope (LLMClient_apiKey (llm s))
                       {| Messages := WSStart_Messages req;
                          SystemPrompt := WSStart_SystemPrompt req;
                          Model := WSStart_Model req;
                          MaxTokens := WSStart_MaxTokens req;
                          Temperature := WSStart_Temperature req |}) in
                let s := withBackend s st in
                match err with
                | Some e => (sendError s "start_failed" (Error e) true, net)
                | None =>
                    ({| ws_conn := ws_conn s; llm := llm s;
                        ws_stream := ws_stream s; started := true;
                        readers := S (readers s) |}, net)
                end
            end
        end
    end.

(** The tail shared by [handleMessage] and [handleToolResult]: transmit,
    and report a failure to the socket. *)
Definition forward (s : wsSession) (st : ChatClient) (m : llmpb.ChatRequest)
  : wsSession :=
  let '(st, err) := stream_Send st m in
  let s := withBackend s st in
  match err with
  | Some e => sendError s "send_failed" (Error e) true
  | None => s
  end.

Definition handleMessage (s : wsSession) (data : RawMessage) : wsSession :=
  if notStarted s then sendError s "not_started" "Session not started" false
  else
    match ws_stream s with
    | None => s                                   (* excluded by the test above *)
    | Some st =>
        match json_WSUserMessage data with
        | Err _ => sendError s "invalid_data" "Invalid message" false
        | Ok msg =>
            forward s st
              (llmpb.ChatRequest_Message
                 {| llmpb.user_Content := WSUser_Content msg |})
        end
    end.

Definition handleAbort (s : wsSession) (data : RawMessage) : wsSession :=
  if notStarted s then s
  else
    match ws_stream s with
    | None => s
    | Some st =>
        let req := json_WSAbortRequest data in
        withBackend s
          (fst (stream_Send st
                  (llmpb.ChatRequest_Abort
                     {| llmpb.abort_Reason := WSAbort_Reason req |})))
    end.

Definition handleToolResult (s : wsSession) (data : RawMessage) : wsSession :=
  if notStarted s then sendError s "not_started" "Session not started" false
  else
    match ws_stream s with
    | None => s
    | Some st =>
        match json_WSToolResult data with
        | Err _ => sendError s "invalid_data" "Invalid tool result" false
        | Ok result =>
            forward s st
              (llmpb.ChatRequest_ToolResult
                 {| llmpb.result_ToolCallId := WSResult_ToolCallID result;
                    llmpb.result_Result := WSResult_Result result;
                    llmpb.result_IsError := WSResult_IsError result |})
        end
    end.

(** One turn of the loop of [run], for the frame [conn.ReadMessage]
    delivered. *)
Definition dispatch (s : wsSession) (net : Net) (message : string)
  : wsSession * Net :=
  match json_WSMessage message with
  | Err _ => (sendError s "invalid_json" "Invalid JSON message" false, net)
  | Ok msg =>
      let type := WSMessage_Type msg in
      if (type =? WSMsgTypeStart)%string then
        handleStart s net (WSMessage_Data msg)
      else if (type =? WSMsgTypeMessage)%string then
        (handleMessage s (WSMessage_Data msg), net)
      else if (type =? WSMsgTypeAbort)%string then
        (handleAbort s (WSMessage_Data msg), net)
      else if (type =? WSMsgTypeToolResult)%string then
        (handleToolResult s (WSMessage_Data msg), net)
      else
        (sendError s "unknown_type" ("Unknown message type: " ++ type) false, net)
  end.

(** [run]: the frames are taken in order until [ReadMessage] fails, which
    is the end of the list. *)
Fixpoint run (s : wsSession) (net : Net) (frames : list string) : wsSession * Net :=
  match frames with
  | [] => (s, net)
  | message :: rest =>
      let '(s, net) := dispatch s net message in
      run s net rest
  end.

End Relay.

(** ** Vocabulary of the statements

    These are not in the source: they name what the theorems speak of. *)

Definition chunkOf (r : llmpb.ChunkResponse) : StreamChunk :=
  {| StreamChunk_Content := llmpb.chunk_Content r; Index := llmpb.chunk_Index r |}.

(** The chunks among backend events, in arrival order. *)
Definition chunksOf (evs : list llmpb.ChatResponse) : list StreamChunk :=
  flat_map (fun r => match r with
                     | llmpb.ChatResponse_Chunk c => [chunkOf c]
                     | _ => []
                     end) evs.

(** The concatenation of chunk contents. *)
Definition textOf (chunks : list StreamChunk) : string :=
  String.concat "" (map StreamChunk_Content chunks).

(** An event is quiet when [Send] goes on receiving after it (the callback
    permitting): it is no completion, error or abort. *)
Definition quiet (r : llmpb.ChatResponse) : bool :=
  match r with
  | llmpb.ChatResponse_Completion _
  | llmpb.ChatResponse_Error _
  | llmpb.ChatResponse_Aborted _ => false
  | _ => true
  end.

(** The callback run over chunks in order, up to its first failure: the
    caller's state at the end, the chunks it was invoked on, its failure. *)
Fixpoint feed {W : Type} (cb : StreamChunk -> W -> W * option error)
  (chunks : list StreamChunk) (w : W) : W * list StreamChunk * option error :=
  match chunks with
  | [] => (w, [], None)
  | ch :: rest =>
      let '(w1, err) := cb ch w in
      match err with
      | Some e => (w1, [ch], Some e)
      | None =>
          let '(w2, inv, r) := feed cb rest w1 in
          (w2, ch :: inv, r)
      end
  end.

Definition deliver {W : Type} (callback : StreamCallback W)
  (chunks : list StreamChunk) (w : W) : W * list StreamChunk * option error :=
  match callback with
  | None => (w, [], None)
  | Some cb => feed cb chunks w
  end.

(** The transport takes the next message handed to [Send]. *)
Definition accepts (st : ChatClient) : Prop := hd None (sendErrs st) = None.

(** [n] calls of [Recv] appended to a stream's log, the deliveries they
    took removed. *)
Definition received (st : ChatClient) (n : nat) (rest : list Delivery) : ChatClient :=
  {| calls := calls st ++ repeat CallRecv n; inbox := rest;
     sendErrs := sendErrs st; closeErr := closeErr st |}.

(** The loop's variables after it took the quiet events [evs] off the
    stream: [rest] is still to come, the callback left the caller's state
    [w] behind and was invoked on [inv]. *)
Definition absorbed {W : Type} (t : Turn W) (evs : list llmpb.ChatResponse)
  (rest : list Delivery) (w : W) (inv : list StreamChunk) : Turn W :=
  {| t_stream := received (t_stream t) (length evs) rest;
     t_fullContent := t_fullContent t ++ textOf (chunksOf evs);
     t_completion := None;
     t_world := w;
     t_invoked := t_invoked t ++ inv |}.

(** A stream once it took the user message [content]. *)
Definition sentMessage (st : ChatClient) (content : string) : ChatClient :=
  {| calls := calls st
              ++ [CallSend (llmpb.ChatRequest_Message
                              {| llmpb.user_Content := content |})];
     inbox := inbox st; sendErrs := tl (sendErrs st); closeErr := closeErr st |}.

(** The loop's variables when [Send] enters the loop. *)
Definition entering {W : Type} (st : ChatClient) (w : W) : Turn W :=
  {| t_stream := st; t_fullContent := ""; t_completion := None;
     t_world := w; t_invoked := [] |}.

(** The response [Send] builds from a completion. *)
Definition responseOf (c : llmpb.CompletionResponse) : ChatResponse :=
  {| Content := llmpb.FullContent c; ChatResponse_Model := "";
     InputTokens := llmpb.InputTokens c; OutputTokens := llmpb.OutputTokens c;
     CostUSD := llmpb.CostUsd c; LatencyMs := llmpb.LatencyMs c;
     StopReason := llmpb.StopReason c |}.

(** [connect] called [n] times in a row: the last state, and every
    call's result. *)
Fixpoint connects {lib : GoLib} (n : nat) (c : LLMClient) (net : Net)
  : LLMClient * Net * list (option error) :=
  match n with
  | O => (c, net, [])
  | S n =>
      let '(c, net, err) := connect c net in
      let '(c, net, errs) := connects n c net in
      (c, net, err :: errs)
  end.

(** The user turn [ChatStream] goes on to send: the content of the last
    message when there is one and its role is "user". *)
Definition userTurn (req : ChatRequest) : option string :=
  match Messages req with
  | [] => None
  | m :: ms =>
      if (ChatMessage_Role (last ms m) =? "user")%string
      then Some (ChatMessage_Content (last ms m)) else None
  end.

(** ** Fixtures of the examples *)

(** A stream as the backend hands it out: nothing called yet, every
    transmission accepted, [events] to deliver and then end of stream. *)
Definition freshStream (events : list llmpb.ChatResponse) : ChatClient :=
  {| calls := []; inbox := map Deliver events; sendErrs := []; closeErr := None |}.

Definition openSession (events : list llmpb.ChatResponse) : ChatSession :=
  {| stream := freshStream events; apiKey := "lv_key"; done := false |}.

(** A callback that keeps the chunks it was given, and one that fails on
    the chunk of index 1. *)
Definition recorder : StreamCallback (list StreamChunk) :=
  Some (fun chunk seen => (seen ++ [chunk], None)).

Definition failsAtOne : StreamCallback (list StreamChunk) :=
  Some (fun chunk seen =>
          (seen ++ [chunk],
           if (Index chunk =? 1)%Z then Some (errorString "stop") else None)).

Definition chunkResponse (text : string) (i : Z) : llmpb.ChunkResponse :=
  {| llmpb.chunk_Content := text; llmpb.chunk_Index := i |}.

Definition chunk (text : string) (i : Z) : llmpb.ChatResponse :=
  llmpb.ChatResponse_Chunk (chunkResponse text i).

Definition completionResponse (text : string) : llmpb.CompletionResponse :=
  {| llmpb.FullContent := text; llmpb.StopReason := "end_turn";
     llmpb.InputTokens := 10%Z; llmpb.OutputTokens := 50%Z;
     llmpb.CostUsd := 0.25%float; llmpb.LatencyMs := 1200%Z |}.

Definition completion (text : string) : llmpb.ChatResponse :=
  llmpb.ChatResponse_Completion (completionResponse text).

Definition errorResponse (code message : string) : llmpb.ErrorResponse :=
  {| llmpb.error_Code := code; llmpb.error_Message := message;
     llmpb.error_Retryable := true |}.

Definition backendError (code message : string) : llmpb.ChatResponse :=
  llmpb.ChatResponse_Error (errorResponse code message).

(** The text of a frame up to its first space, and the text after it. *)
Fixpoint splitAtSpace (text : string) : string * string :=
  match text with
  | EmptyString => ("", "")
  | String a rest =>
      if Ascii.eqb a " "%char then ("", rest)
      else let '(h, t) := splitAtSpace rest in (String a h, t)
  end.

(** A stand-in for the libraries: every URL has the host [levee.test], the
    config endpoint's body always decodes to an available service on port
    9889, and a frame is its type, a space, and its payload, the payload of a
    message being its content. *)
Definition exampleLib : GoLib :=
  {| url_Hostname := fun _ => Ok "levee.test";
     http_NewRequest := fun _ => None;
     json_llmConfigResponse := fun _ =>
       Ok {| Available := true; GRPCPort := 9889%Z;
             DefaultProvider := "anthropic"; ConfiguredProviders := ["anthropic"] |};
     json_WSMessage := fun text =>
       let '(type, data) := splitAtSpace text in
       Ok {| WSMessage_Type := type; WSMessage_Data := data |};
     json_WSStartRequest := fun data =>
       Ok {| WSStart_SystemPrompt := data; WSStart_Model := "sonnet";
             WSStart_MaxTokens := 1024%Z; WSStart_Temperature := 0.5%float;
             WSStart_Messages := [] |};
     json_WSUserMessage := fun data => Ok {| WSUser_Content := data |};
     json_WSToolResult := fun data =>
       Ok {| WSResult_ToolCallID := "call_1"; WSResult_Result := data;
             WSResult_IsError := false |};
     json_WSAbortRequest := fun data => {| WSAbort_Reason := data |} |}.

(** A network that answers every lookup with 200, accepts every dial and
    hands out a fresh stream on which [events] arrive. *)
Definition exampleNet (events : list llmpb.ChatResponse) : Net :=
  {| configReply := fun _ => ConfigResponse 200%Z "{}";
     dialReply := fun _ => None;
     chatReply := fun _ => Ok (freshStream events);
     lookups := []; dials := []; conns := 0; closed := []; opened := 0 |}.

(** A client as [NewLLMClient] makes it for [https://levee.test], with no
    address set. *)
Definition exampleClient : LLMClient :=
  {| LLMClient_apiKey := "lv_key"; baseURL := "https://levee.test";
     grpcAddr := ""; useTLS := true; conn := None; client := None |}.

(** A request with a history of three messages, the last one the user's. *)
Definition exampleRequest : ChatRequest :=
  {| Messages :=
       [{| ChatMessage_Role := "user"; ChatMessage_Content := "first" |};
        {| ChatMessage_Role := "assistant"; ChatMessage_Content := "reply" |};
        {| ChatMessage_Role := "user"; ChatMessage_Content := "second" |}];
     SystemPrompt := "be brief"; Model := "sonnet"; MaxTokens := 1024%Z;
     Temperature := 0.5%float |}.

(** The relay session of a socket just accepted. *)
Definition acceptedSocket : wsSession :=
  {| ws_conn := []; llm := exampleClient; ws_stream := None;
     started := false; readers := 0 |}.

(** ** Package [strings], on byte strings

    The functions of [strings] the SDK calls, as their documentation gives
    them.  [Split] and [SplitN] are only ever called with a separator of one
    byte, and [SplitN] with the count 2; they are modelled at those. *)

(** [s[:n]] and [s[n:]]. *)
Fixpoint take (n : nat) (s : string) : string :=
  match n, s with
  | S n, String a rest => String a (take n rest)
  | _, _ => ""
  end.

Fixpoint drop (n : nat) (s : string) : string :=
  match n, s with
  | S n, String _ rest => drop n rest
  | _, _ => s
  end.

Definition HasPrefix (s prefix : string) : bool := String.prefix prefix s.

Definition HasSuffix (s suffix : string) : bool :=
  (String.length suffix <=? String.length s)%nat
  && (drop (String.length s - String.length suffix) s =? suffix)%string.

Definition TrimSuffix (s suffix : string) : string :=
  if HasSuffix s suffix
  then take (String.length s - String.length suffix) s
  else s.

(** The index of the last instance of [substr] in [s], or -1. *)
Fixpoint LastIndex (s substr : string) : Z :=
  match s with
  | EmptyString => if (substr =? "")%string then 0%Z else (-1)%Z
  | String _ rest =>
      let i := LastIndex rest substr in
      if (i =? -1)%Z
      then (if String.prefix substr s then 0%Z else (-1)%Z)
      else (i + 1)%Z
  end.

(** [strings.Split(s, sep)] for a one-byte [sep]. *)
Fixpoint Split (s : string) (sep : ascii) : list string :=
  match s with
  | EmptyString => [""]
  | String a rest =>
      if Ascii.eqb a sep then "" :: Split rest sep
      else match Split rest sep with
           | head :: tail => String a head :: tail
           | [] => [String a ""]
           end
  end.

(** [strings.SplitN(s, sep, 2)] for a one-byte [sep]: [s] cut at the first
    [sep], or [s] alone. *)
Fixpoint SplitN2 (s : string) (sep : ascii) : list string :=
  match s with
  | EmptyString => [""]
  | String a rest =>
      if Ascii.eqb a sep then [""; rest]
      else match SplitN2 rest sep with
           | [head; tail] => [String a head; tail]
           | _ => [s]
           end
  end.

(** ** [handlers.go]: tokens, webhook URLs, Stripe signatures *)

(** The fields of [Client] the functions below read. *)
Record Client := { Client_apiKey : string; Client_baseURL : string }.

Definition extractToken (path prefix : string) : string :=
  let idx := LastIndex path prefix in
  if (idx =? -1)%Z then ""
  else TrimSuffix (drop (Z.to_nat idx + String.length prefix) path) "/".

Definition webhookBaseURL (c : Client) : string :=
  let base := Client_baseURL c in
  if HasSuffix base "/sdk/v1" then take (String.length base - 7) base else base.

(** [crypto/hmac] with [crypto/sha256], hex-encoded: the text
    [hex.EncodeToString(mac.Sum(nil))] for a key and a message. *)
Class GoCrypto := { hmac_sha256_hex : string -> string -> string }.

(** The loop of [verifyStripeSignature] over the parts of the header: the
    last [t] and the last [v1] win. *)
Definition parseSignature (signature : string) : string * string :=
  fold_left
    (fun (acc : string * string) (part : string) =>
       let '(timestamp, sig) := acc in
       match SplitN2 part "="%char with
       | [k; v] =>
           if (k =? "t")%string then (v, sig)
           else if (k =? "v1")%string then (timestamp, v)
           else (timestamp, sig)
       | _ => (timestamp, sig)
       end)
    (Split signature ","%char) ("", "").

Definition verifyStripeSignature {crypto : GoCrypto}
  (payload signature secret : string) : bool :=
  if (signature =? "")%string then false
  else
    let '(timestamp, sig) := parseSignature signature in
    if (timestamp =? "")%string || (sig =? "")%string then false
    else
      let signedPayload := (timestamp ++ "." ++ payload)%string in
      let expected := hmac_sha256_hex secret signedPayload in
      (expected =? sig)%string.

(** ** [llm.go]: making a client *)

Definition LLMOption := LLMClient -> LLMClient.

Definition WithGRPCAddress (addr : string) : LLMOption :=
  fun c =>
    {| LLMClient_apiKey := LLMClient_apiKey c; baseURL := baseURL c;
       grpcAddr := addr; useTLS := useTLS c; conn := conn c; client := client c |}.

(** [NewLLMClient]; the HTTP client it stores is the network of the model. *)
Definition NewLLMClient (key url : string) (opts : list LLMOption) : LLMClient :=
  fold_left (fun c (opt : LLMOption) => opt c) opts
    {| LLMClient_apiKey := key;
       baseURL := TrimSuffix url "/";
       grpcAddr := "";
       useTLS := HasPrefix url "https://";
       conn := None; client := None |}.

(** ** The relay's forwarding loop *)

(** [readGRPCResponses], run on its own: every delivery is forwarded by
    [relayResponse]; end of stream ends the loop silently, a transport error
    with one [stream_error] frame.  [None] is the loop still running when the
    fuel is gone. *)
Fixpoint readGRPCResponses (fuel : nat) (s : wsSession) : option wsSession :=
  match fuel with
  | O => None
  | S fuel =>
      match ws_stream s with
      | None => Some s             (* the goroutine starts once s.stream is set *)
      | Some st =>
          let '(st, r) := stream_Recv st in
          let s := withBackend s st in
          match r with
          | RecvEOF => Some s
          | RecvErr e => Some (sendError s "stream_error" (Error e) false)
          | RecvMsg resp => readGRPCResponses fuel (relayResponse s resp)
          end
      end
  end.

(** ** More vocabulary *)


(** The events [Send] has no case for, or an empty case. *)
Definition ignored (r : llmpb.ChatResponse) : bool :=
  match r with
  | llmpb.ChatResponse_SessionStarted _
  | llmpb.ChatResponse_ToolCall _
  | llmpb.ChatResponse_unset => true
  | _ => false
  end.

Definition audible (d : Delivery) : bool :=
  match d with
  | Deliver r => negb (ignored r)
  | TransportError _ => true
  end.

(** A session on the same stream with the ignored events taken out. *)
Definition withoutIgnored (s : ChatSession) : ChatSession :=
  withStream s
    {| calls := calls (stream s); inbox := filter audible (inbox (stream s));
       sendErrs := sendErrs (stream s); closeErr := closeErr (stream s) |}.

(** What [Send]'s loop keeps besides the stream. *)
Definition vars {W : Type} (t : Turn W)
  : string * option llmpb.CompletionResponse * W * list StreamChunk :=
  (t_fullContent t, t_completion t, t_world t, t_invoked t).

(** The byte [c] occurs in [s]. *)
Fixpoint hasByte (c : ascii) (s : string) : bool :=
  match s with
  | EmptyString => false
  | String a rest => Ascii.eqb a c || hasByte c rest
  end.

(** The relay's bookkeeping is sound: a started session has its backend
    stream, and one forwarding goroutine runs for it and none otherwise. *)
Definition wellFormed (s : wsSession) : Prop :=
  (started s = true -> exists st, ws_stream s = Some st)
  /\ readers s = (if started s then 1 else 0).

(** An error frame. *)
Definition errorFrame (code message : string) (retryable : bool) : WSFrame :=
  {| frame_Type := "error";
     frame_Data := DataError {| Code := code; Message := message;
                                Retryable := retryable |} |}.

(** What a handler may do to the socket: nothing, or one error frame. *)
Definition answered (s s' : wsSession) : Prop :=
  ws_conn s' = ws_conn s
  \/ exists code message retryable,
       ws_conn s' = ws_conn s ++ [errorFrame code message retryable].

(** The events the forwarding loop turns into a frame: those with a
    variant set, a completion only when its cost marshals. *)
Definition forwardable (r : llmpb.ChatResponse) : bool :=
  match r with
  | llmpb.ChatResponse_unset => false
  | llmpb.ChatResponse_Completion c => is_finite (llmpb.CostUsd c)
  | _ => true
  end.

(** A relay session with its stream advanced past [n] deliveries. *)
Definition forwarded (s : wsSession) (st : ChatClient) (n : nat)
  (rest : list Delivery) : wsSession :=
  {| ws_conn := ws_conn s; llm := llm s;
     ws_stream := Some (received st n rest);
     started := started s; readers := readers s |}.

(** A stand-in for HMAC in the examples: the key, a colon, the message. *)
Definition exampleCrypto : GoCrypto :=
  {| hmac_sha256_hex := fun key msg => (key ++ ":" ++ msg)%string |}.

(** A library whose config endpoint says the service is not available. *)
Definition unavailableLib : GoLib :=
  {| url_Hostname := fun _ => Ok "levee.test";
     http_NewRequest := fun _ => None;
     json_llmConfigResponse := fun _ =>
       Ok {| Available := false; GRPCPort := 0%Z;
             DefaultProvider := ""; ConfiguredProviders := [] |};
     json_WSMessage := @json_WSMessage exampleLib;
     json_WSStartRequest := @json_WSStartRequest exampleLib;
     json_WSUserMessage := @json_WSUserMessage exampleLib;
     json_WSToolResult := @json_WSToolResult exampleLib;
     json_WSAbortRequest := @json_WSAbortRequest exampleLib |}.

(** A network on which no dial succeeds. *)
Definition refusingNet : Net :=
  {| configReply := fun _ => ConfigResponse 200%Z "{}";
     dialReply := fun _ => Some (errorString "connection refused");
     chatReply := fun _ => Ok (freshStream []);
     lookups := []; dials := []; conns := 0; closed := []; opened := 0 |}.

(** A client with its address set. *)
Definition addressedClient : LLMClient :=
  {| LLMClient_apiKey := "lv_key"; baseURL := "https://levee.test";
     grpcAddr := "llm.levee.test:9889"; useTLS := true;
     conn := None; client := None |}.

(** A relay session after its start, with [events] to come on the backend
    stream. *)
Definition startedSocket (events : list llmpb.ChatResponse) : wsSession :=
  {| ws_conn := []; llm := exampleClient;
     ws_stream := Some (freshStream events); started := true; readers := 1 |}.

(** A stream on which a transport error follows [events]. *)
Definition failingStream (events : list llmpb.ChatResponse) (e : error) : ChatClient :=
  {| calls := []; inbox := map Deliver events ++ [TransportError e];
     sendErrs := []; closeErr := None |}.

(** The example client after its first [connect], and after the [Close]
    that follows. *)
Definition connectedOnce : LLMClient * Net * option error :=
  @connect exampleLib exampleClient (exampleNet []).

Definition closedAgain : LLMClient * Net :=
  LLMClient_Close (fst (fst connectedOnce)) (snd (fst connectedOnce)).

(** ** [handlers.go] and [client_compat.go]: the HTTP handlers

    An inbound request is what the handlers read of [*http.Request]; a reply
    is the call they make on the [http.ResponseWriter].  Outbound requests go
    through [c.httpClient.Do], and the model stands at that call: the record
    [Web] logs the requests handed to [Do] and gives what [Do] returns for
    each.  What the client does between the two is its own business and not
    this code's: a client that follows redirects puts further requests on the
    wire and returns the response it ends on, and that response is the one
    [web_do] gives. *)

Record Request := {
  Request_Method : string;
  Request_Path : string;                (* r.URL.Path *)
  Request_PathValue : string -> string; (* r.PathValue(name) *)
  Request_Query : string -> string;     (* r.URL.Query().Get(name) *)
  Request_Header : string -> string;    (* r.Header.Get(name) *)
  Request_Body : result string          (* io.ReadAll(r.Body) *)
}.

Inductive Reply : Type :=
| http_Error (message : string) (code : Z)      (* http.Error(w, message, code) *)
| http_Redirect (url : string) (code : Z)       (* http.Redirect(w, r, url, code) *)
| Written (code : Z) (body : string).           (* w.WriteHeader(code); w.Write(body) *)

Definition StatusOK := 200%Z.
Definition StatusTemporaryRedirect := 307%Z.
Definition StatusBadRequest := 400%Z.
Definition StatusUnauthorized := 401%Z.
Definition StatusMethodNotAllowed := 405%Z.
Definition StatusInternalServerError := 500%Z.

(** The body of an outbound request: a [map[string]string] marshalled as
    JSON, or raw text. *)
Inductive HTTPBody : Type :=
| JSONBody (fields : list (string * string))
| RawBody (text : string).

Record HTTPRequest := {
  hr_method : string;
  hr_url : string;
  hr_headers : list (string * string);
  hr_body : HTTPBody
}.

Record HTTPResponse := { StatusCode : Z; ResponseBody : string }.

Record Web := {
  web_do : HTTPRequest -> result HTTPResponse;  (* what httpClient.Do returns *)
  web_sent : list HTTPRequest                   (* the requests handed to Do so far *)
}.

Definition httpClient_Do (web : Web) (req : HTTPRequest) : Web * result HTTPResponse :=
  ({| web_do := web_do web; web_sent := web_sent web ++ [req] |}, web_do web req).

(** The decoder [decodeResponse] runs on an error body: the [message] field
    of the API's error response. *)
Class ApiJSON := { json_Response_Message : string -> result string }.

Record HandlerConfig := {
  UnsubscribeRedirect : string;
  ConfirmRedirect : string;
  ConfirmExpiredRedirect : string;
  StripeWebhookSecret : string
}.

Definition HandlerOption := HandlerConfig -> HandlerConfig.

Definition WithUnsubscribeRedirect (url : string) : HandlerOption :=
  fun c =>
    {| UnsubscribeRedirect := url; ConfirmRedirect := ConfirmRedirect c;
       ConfirmExpiredRedirect := ConfirmExpiredRedirect c;
       StripeWebhookSecret := StripeWebhookSecret c |}.

Definition WithStripeWebhookSecret (secret : string) : HandlerOption :=
  fun c =>
    {| UnsubscribeRedirect := UnsubscribeRedirect c;
       ConfirmRedirect := ConfirmRedirect c;
       ConfirmExpiredRedirect := ConfirmExpiredRedirect c;
       StripeWebhookSecret := secret |}.

Definition NewHandlerConfig (opts : list HandlerOption) : HandlerConfig :=
  fold_left (fun cfg (opt : HandlerOption) => opt cfg) opts
    {| UnsubscribeRedirect := "/unsubscribed"; ConfirmRedirect := "/confirmed";
       ConfirmExpiredRedirect := "/confirm-expired"; StripeWebhookSecret := "" |}.

Section Handlers.
Context {lib : GoLib} {api : ApiJSON} {crypto : GoCrypto}.

(** [doRequest] with a [map[string]string] for its body. *)
Definition doRequest (c : Client) (web : Web) (method path : string)
  (body : list (string * string)) : Web * result HTTPResponse :=
  match http_NewRequest (Client_baseURL c ++ path) with
  | Some e => (web, Err (wrapError "failed to create request: " e))
  | None =>
      httpClient_Do web
        {| hr_method := method;
           hr_url := Client_baseURL c ++ path;
           hr_headers := [("Content-Type", "application/json");
                          ("X-API-Key", Client_apiKey c)];
           hr_body := JSONBody body |}
  end.

(** [decodeResponse(resp, nil)]. *)
Definition decodeResponse (resp : HTTPResponse) : option error :=
  if (400 <=? StatusCode resp)%Z then
    match json_Response_Message (ResponseBody resp) with
    | Err _ =>
        Some (errorString ("API error (status " ++ fmt_d (StatusCode resp) ++ ")"))
    | Ok message => Some (errorString ("API error: " ++ message))
    end
  else None.

Definition RecordUnsubscribe (c : Client) (web : Web) (token : string)
  : Web * option error :=
  let '(web, r) :=
    doRequest c web "POST" "/sdk/v1/tracking/unsubscribe" [("token", token)] in
  match r with
  | Err e => (web, Some e)
  | Ok resp => (web, decodeResponse resp)
  end.

Definition getToken (r : Request) (pathPrefix : string) : string :=
  let token := Request_PathValue r "token" in
  if negb (token =? "")%string then token
  else extractToken (Request_Path r) pathPrefix.

(** [handleUnsubscribe], the handler [RegisterHandlers] mounts. *)
Definition handleUnsubscribe (c : Client) (cfg : HandlerConfig) (web : Web)
  (r : Request) : Web * Reply :=
  if negb (Request_Method r =? "GET")%string then
    (web, http_Error "Method not allowed" StatusMethodNotAllowed)
  else
    let token := extractToken (Request_Path r) "/e/u/" in
    if (token =? "")%string then (web, http_Error "Missing token" StatusBadRequest)
    else
      let '(web, err) := RecordUnsubscribe c web token in
      match err with
      | Some _ => (web, http_Error "Failed to unsubscribe" StatusInternalServerError)
      | None => (web, http_Redirect (UnsubscribeRedirect cfg) StatusTemporaryRedirect)
      end.

(** [HandleUnsubscribe], the exported handler for other routers. *)
Definition HandleUnsubscribe (c : Client) (cfg : HandlerConfig) (web : Web)
  (r : Request) : Web * Reply :=
  if negb (Request_Method r =? "GET")%string then
    (web, http_Error "Method not allowed" StatusMethodNotAllowed)
  else
    let token := getToken r "/e/u/" in
    if (token =? "")%string then (web, http_Error "Missing token" StatusBadRequest)
    else
      let '(web, _) := RecordUnsubscribe c web token in
      (web, http_Redirect (UnsubscribeRedirect cfg) StatusTemporaryRedirect).

Definition ForwardStripeWebhook (c : Client) (web : Web) (payload signature : string)
  : Web * option error :=
  let webhookURL := (webhookBaseURL c ++ "/webhooks/stripe")%string in
  match http_NewRequest webhookURL with
  | Some e => (web, Some (wrapError "failed to create request: " e))
  | None =>
      let '(web, r) :=
        httpClient_Do web
          {| hr_method := "POST"; hr_url := webhookURL;
             hr_headers := [("Content-Type", "application/json");
                            ("X-API-Key", Client_apiKey c);
                            ("Stripe-Signature", signature)];
             hr_body := RawBody payload |} in
      match r with
      | Err e => (web, Some (wrapError "failed to forward webhook: " e))
      | Ok resp =>
          if (400 <=? StatusCode resp)%Z then
            (web, Some (errorString ("webhook forward failed with status "
                                     ++ fmt_d (StatusCode resp))))
          else (web, None)
      end
  end.

(** The body of the answer to a webhook that went through: the JSON object
    with [received] set to true. *)
Definition receivedBody : string :=
  String "{" (String (ascii_of_nat 34)
    ("received" ++ String (ascii_of_nat 34) ": true}")).

(** [handleStripeWebhook] and [HandleStripeWebhook]: the two have the same
    body. *)
Definition handleStripeWebhook (c : Client) (cfg : HandlerConfig) (web : Web)
  (r : Request) : Web * Reply :=
  if negb (Request_Method r =? "POST")%string then
    (web, http_Error "Method not allowed" StatusMethodNotAllowed)
  else
    match Request_Body r with
    | Err _ => (web, http_Error "Failed to read body" StatusBadRequest)
    | Ok body =>
        if negb (StripeWebhookSecret cfg =? "")%string
           && negb (verifyStripeSignature body (Request_Header r "Stripe-Signature")
                      (StripeWebhookSecret cfg))
        then (web, http_Error "Invalid signature" StatusUnauthorized)
        else
          let '(web, err) :=
            ForwardStripeWebhook c web body (Request_Header r "Stripe-Signature") in
          match err with
          | Some _ =>
              (web, http_Error "Failed to process webhook" StatusInternalServerError)
          | None => (web, Written StatusOK receivedBody)
          end
    end.

End Handlers.

(** An HTTP client whose [Do] returns a response of the given status for
    every request. *)
Definition exampleWeb (status : Z) : Web :=
  {| web_do := fun _ => Ok {| StatusCode := status; ResponseBody := "{}" |};
     web_sent := [] |}.

Definition exampleApi : ApiJSON :=
  {| json_Response_Message := fun _ => Ok "gone" |}.

Definition exampleSDK : Client :=
  {| Client_apiKey := "lv_key"; Client_baseURL := "https://levee.test/sdk/v1" |}.

(** A GET of an unsubscribe link on a plain [http.ServeMux]. *)
Definition unsubscribeLink : Request :=
  {| Request_Method := "GET"; Request_Path := "/levee/e/u/tok_123";
     Request_PathValue := fun _ => ""; Request_Query := fun _ => "";
     Request_Header := fun _ => ""; Request_Body := Ok "" |}.

(** A Stripe webhook delivery with the given signature header. *)
Definition stripeDelivery (signature : string) : Request :=
  {| Request_Method := "POST"; Request_Path := "/levee/webhooks/stripe";
     Request_PathValue := fun _ => ""; Request_Query := fun _ => "";
     Request_Header := fun name =>
       if (name =? "Stripe-Signature")%string then signature else "";
     Request_Body := Ok "{}" |}.

(** * Facts *)

(** ** Strings and logs *)

Lemma string_app_nil_r (s : string) : (s ++ "")%string = s.
Proof. induction s as [|a s IH]; simpl; [reflexivity | now rewrite IH]. Qed.

Lemma string_app_assoc (a b c : string) :
  ((a ++ b) ++ c)%string = (a ++ (b ++ c))%string.
Proof. induction a as [|x a IH]; simpl; [reflexivity | now rewrite IH]. Qed.

Lemma textOf_cons (ch : StreamChunk) (chunks : list StreamChunk) :
  textOf (ch :: chunks) = (StreamChunk_Content ch ++ textOf chunks)%string.
Proof.
  unfold textOf. destruct chunks as [|ch' chunks]; simpl.
  - now rewrite string_app_nil_r.
  - reflexivity.
Qed.

Lemma textOf_app (xs ys : list StreamChunk) :
  textOf (xs ++ ys) = (textOf xs ++ textOf ys)%string.
Proof.
  induction xs as [|x xs IH].
  - reflexivity.
  - rewrite <- app_comm_cons, !textOf_cons, IH. now rewrite string_app_assoc.
Qed.

Lemma chunksOf_app (xs ys : list llmpb.ChatResponse) :
  chunksOf (xs ++ ys) = chunksOf xs ++ chunksOf ys.
Proof. unfold chunksOf. now rewrite flat_map_app. Qed.

Lemma transmitted_logCall (c : StreamCall) (st : ChatClient) :
  transmitted (logCall c st)
  = transmitted st ++ match c with CallSend m => [m] | _ => [] end.
Proof.
  unfold transmitted, logCall; simpl. rewrite flat_map_app; simpl.
  now rewrite app_nil_r.
Qed.

Lemma transmitted_Send (st : ChatClient) (m : llmpb.ChatRequest) :
  transmitted (fst (stream_Send st m)) = transmitted st ++ [m].
Proof.
  unfold stream_Send. destruct (sendErrs st); simpl;
    apply (transmitted_logCall (CallSend m) st).
Qed.

Lemma transmitted_Recv (st : ChatClient) :
  transmitted (fst (stream_Recv st)) = transmitted st.
Proof.
  unfold stream_Recv.
  destruct (inbox st); simpl;
    change (transmitted (logCall CallRecv st) = transmitted st);
    rewrite transmitted_logCall; apply app_nil_r.
Qed.

Lemma transmitted_CloseSend (st : ChatClient) :
  transmitted (fst (stream_CloseSend st)) = transmitted st.
Proof.
  unfold stream_CloseSend; simpl.
  rewrite transmitted_logCall. apply app_nil_r.
Qed.

Lemma accepts_Send (st : ChatClient) (m : llmpb.ChatRequest) :
  accepts st ->
  stream_Send st m
  = ({| calls := calls st ++ [CallSend m]; inbox := inbox st;
        sendErrs := tl (sendErrs st); closeErr := closeErr st |}, None).
Proof.
  unfold accepts, stream_Send, logCall.
  destruct (sendErrs st) as [|o rest]; simpl; intros H; [reflexivity | now subst].
Qed.

(** ** The receive loop *)

(** The end of an iteration: the loop goes on exactly when no completion
    is recorded, and then the iteration's state is the one at hand. *)
Ltac went_on comp :=
  destruct comp;
  let H := fresh in intros H; inversion H; subst; simpl; now split.

Section LoopFacts.
Context {W : Type}.
Variable callback : StreamCallback W.

(** An iteration that goes on has taken one delivery off the stream, and
    has recorded no completion. *)
Lemma recvStep_Continue (t t' : Turn W) :
  recvStep callback t = (t', Continue) ->
  S (length (inbox (t_stream t'))) = length (inbox (t_stream t))
  /\ t_completion t' = None.
Proof.
  destruct t as [[cl ib se ce] fc comp w inv].
  unfold recvStep, stream_Recv; simpl.
  destruct ib as [|[ev|e] ib]; simpl; try discriminate.
  destruct ev as [r|r|r|r|r|r|]; simpl; try discriminate; try went_on comp.
  destruct callback as [cb|]; simpl; [|went_on comp].
  destruct (cb _ w) as [w1 [e|]]; simpl; [discriminate | went_on comp].
Qed.


(** The loop transmits nothing. *)
Lemma recvStep_transmitted (t : Turn W) :
  transmitted (t_stream (fst (recvStep callback t))) = transmitted (t_stream t).
Proof.
  destruct t as [st fc comp w inv].
  unfold recvStep; simpl.
  pose proof (transmitted_Recv st) as Hr.
  destruct (stream_Recv st) as [st1 [resp|e|]]; simpl in *; try exact Hr.
  destruct resp as [r|r|r|r|r|r|]; simpl;
    try (destruct comp; simpl; exact Hr).
  destruct callback as [cb|]; simpl.
  - destruct (cb _ w) as [w1 [e|]]; simpl; [exact Hr|].
    destruct comp; simpl; exact Hr.
  - destruct comp; simpl; exact Hr.
Qed.

Lemma recvLoop_transmitted (fuel : nat) : forall t : Turn W,
  transmitted (t_stream (fst (recvLoop fuel callback t))) = transmitted (t_stream t).
Proof.
  induction fuel as [|fuel IH]; intros t; [reflexivity|].
  simpl. pose proof (recvStep_transmitted t) as Hs.
  destruct (recvStep callback t) as [t1 [| |e]]; simpl in *; try exact Hs.
  now rewrite IH.
Qed.





(** Quiet events on which the callback does not fail are taken off the
    stream one by one, and the loop goes on behind them. *)
Lemma recvLoop_quiet (evs : list llmpb.ChatResponse) :
  forall (rest : list Delivery) (fuel : nat) (t : Turn W) (w : W)
         (inv : list StreamChunk),
    forallb quiet evs = true ->
    t_completion t = None ->
    inbox (t_stream t) = map Deliver evs ++ rest ->
    deliver callback (chunksOf evs) (t_world t) = (w, inv, None) ->
    recvLoop (length evs + fuel) callback t
    = recvLoop fuel callback (absorbed t evs rest w inv).
Proof.
  induction evs as [|ev evs IH]; intros rest fuel t w inv Hq Hc Hin Hd.
  - destruct t as [[cl ib se ce] fc comp w0 inv0]; simpl in *; subst.
    assert (Hw : w = w0 /\ inv = []).
    { destruct callback; simpl in Hd; inversion Hd; now split. }
    destruct Hw; subst. unfold absorbed, received; simpl.
    now rewrite !app_nil_r, string_app_nil_r.
  - destruct t as [[cl ib se ce] fc comp w0 inv0]; simpl in Hc, Hin, Hd; subst.
    simpl in Hq. apply andb_prop in Hq as [Hev Hq].
    change (length (ev :: evs) + fuel) with (S (length evs + fuel)).
    cbn [recvLoop]. unfold recvStep, stream_Recv; simpl.
    destruct ev as [r|r|r|r|r|r|]; simpl in Hev; try discriminate; simpl.
    + erewrite IH; [| exact Hq | reflexivity | reflexivity | exact Hd].
      unfold absorbed, received; simpl. now rewrite <- app_assoc.
    + destruct callback as [cb|]; simpl in Hd |- *.
      * change {| StreamChunk_Content := llmpb.chunk_Content r;
                  Index := llmpb.chunk_Index r |} with (chunkOf r).
        destruct (cb (chunkOf r) w0) as [w1 [e|]]; [discriminate|].
        destruct (feed cb (chunksOf evs) w1) as [[w2 inv2] r2] eqn:Hfeed.
        inversion Hd; subst. simpl.
        erewrite IH; [| exact Hq | reflexivity | reflexivity | exact Hfeed].
        unfold absorbed, received; simpl.
        rewrite textOf_cons, <- !app_assoc, string_app_assoc. reflexivity.
      * inversion Hd; subst.
        erewrite IH; [| exact Hq | reflexivity | reflexivity | reflexivity].
        unfold absorbed, received; simpl.
        rewrite textOf_cons, <- !app_assoc, string_app_assoc. reflexivity.
    + erewrite IH; [| exact Hq | reflexivity | reflexivity | exact Hd].
      unfold absorbed, received; simpl. now rewrite <- app_assoc.
    + erewrite IH; [| exact Hq | reflexivity | reflexivity | exact Hd].
      unfold absorbed, received; simpl. now rewrite <- app_assoc.
Qed.

Lemma runLoop_quiet (evs : list llmpb.ChatResponse) (rest : list Delivery)
  (t : Turn W) (w : W) (inv : list StreamChunk) :
  forallb quiet evs = true ->
  t_completion t = None ->
  inbox (t_stream t) = map Deliver evs ++ rest ->
  deliver callback (chunksOf evs) (t_world t) = (w, inv, None) ->
  runLoop callback t = runLoop callback (absorbed t evs rest w inv).
Proof.
  intros Hq Hc Hin Hd. unfold runLoop.
  rewrite Hin, length_app, length_map.
  replace (S (length evs + length rest)) with (length evs + S (length rest)) by lia.
  now apply recvLoop_quiet.
Qed.

(** A callback that did not fail was invoked on every chunk. *)
Lemma feed_all (cb : StreamChunk -> W -> W * option error)
  (chunks : list StreamChunk) : forall (w w' : W) (inv : list StreamChunk),
  feed cb chunks w = (w', inv, None) -> inv = chunks.
Proof.
  induction chunks as [|ch chunks IH]; intros w w' inv H; simpl in H.
  - now inversion H.
  - destruct (cb ch w) as [w1 [e|]]; [discriminate|].
    destruct (feed cb chunks w1) as [[w2 inv2] r2] eqn:Hf.
    inversion H; subst. f_equal. eapply IH; eassumption.
Qed.

(** The iteration on which the callback fails is the last. *)
Lemma runLoop_callback_fails (cb : StreamChunk -> W -> W * option error)
  (t : Turn W) (c : llmpb.ChunkResponse) (post : list Delivery) (w : W) (e : error) :
  inbox (t_stream t) = Deliver (llmpb.ChatResponse_Chunk c) :: post ->
  cb (chunkOf c) (t_world t) = (w, Some e) ->
  runLoop (Some cb) t
  = ({| t_stream := received (t_stream t) 1 post;
        t_fullContent := t_fullContent t ++ llmpb.chunk_Content c;
        t_completion := t_completion t;
        t_world := w;
        t_invoked := t_invoked t ++ [chunkOf c] |}, Some (Return e)).
Proof.
  destruct t as [[cl ib se ce] fc comp w0 inv0]; simpl. intros Hin Hcb; subst ib.
  unfold runLoop; cbn [recvLoop]. unfold recvStep, stream_Recv; simpl.
  fold (chunkOf c). now rewrite Hcb.
Qed.

End LoopFacts.

(** ** [ChatSession.Send] *)

Section SendFacts.
Context {W : Type}.
Variable callback : StreamCallback W.

(** [Send] on an open session whose transport takes the message, with
    quiet events [pre] first in line: what it does is what its loop does
    behind [pre]. *)
Lemma Send_after_quiet (s : ChatSession) (content : string) (w w1 : W)
  (pre : list llmpb.ChatResponse) (rest : list Delivery) (inv : list StreamChunk) :
  done s = false ->
  accepts (stream s) ->
  inbox (stream s) = map Deliver pre ++ rest ->
  forallb quiet pre = true ->
  deliver callback (chunksOf pre) w = (w1, inv, None) ->
  Send s content callback w
  = let '(t, flow) :=
      runLoop callback (absorbed (entering (sentMessage (stream s) content) w) pre rest w1 inv) in
    {| session := withStream s (t_stream t); world := t_world t;
       invoked := t_invoked t;
       returned := match flow with
                   | Some Break => Some (Ok (afterLoop t))
                   | Some (Return e) => Some (Err e)
                   | Some Continue | None => None
                   end |}.
Proof.
  intros Hdone Hacc Hin Hq Hd. unfold Send.
  rewrite Hdone, (accepts_Send _ _ Hacc).
  fold (sentMessage (stream s) content).
  fold (entering (sentMessage (stream s) content) w).
  now rewrite (runLoop_quiet callback pre rest (entering (sentMessage (stream s) content) w) w1 inv).
Qed.


(** [Send] transmits the user message and nothing else. *)
Lemma Send_transmitted (s : ChatSession) (content : string) (w : W) :
  done s = false ->
  transmitted (stream (session (Send s content callback w)))
  = transmitted (stream s)
    ++ [llmpb.ChatRequest_Message {| llmpb.user_Content := content |}].
Proof.
  intros Hdone. unfold Send. rewrite Hdone.
  pose proof (transmitted_Send (stream s)
                (llmpb.ChatRequest_Message {| llmpb.user_Content := content |})) as Hs.
  destruct (stream_Send (stream s) _) as [st [e|]]; simpl in Hs |- *; [exact Hs|].
  fold (entering st w).
  pose proof (recvLoop_transmitted callback
                (S (length (inbox (t_stream (entering st w))))) (entering st w)) as Hl.
  fold (runLoop callback (entering st w)) in Hl.
  destruct (runLoop callback (entering st w)) as [t flow]; simpl in Hl |- *.
  now rewrite Hl.
Qed.

End SendFacts.

Section SendTheorems.
Context {W : Type}.
Variable callback : StreamCallback W.

(** C1.  What the code does, against the claim and against the comment
    in its own completion case ("Don't break - there might be more
    responses"): a completion event ends the receive loop at once.  When
    quiet events [pre] come before the first completion and the callback
    fails on none of their chunks, [Send] returns the response built from
    that completion after [length pre + 1] receives; the callback was invoked
    on the chunks of [pre] only, and whatever the backend sends after the
    completion ([post]) stays on the stream, not received by this call. *)
Theorem Send_stops_at_completion (s : ChatSession) (content : string) (w w1 : W)
  (pre : list llmpb.ChatResponse) (comp : llmpb.CompletionResponse)
  (post : list Delivery) (inv : list StreamChunk) :
  done s = false ->
  accepts (stream s) ->
  inbox (stream s)
  = map Deliver pre ++ Deliver (llmpb.ChatResponse_Completion comp) :: post ->
  forallb quiet pre = true ->
  deliver callback (chunksOf pre) w = (w1, inv, None) ->
  let out := Send s content callback w in
  returned out = Some (Ok (responseOf comp))
  /\ invoked out = inv
  /\ world out = w1
  /\ inbox (stream (session out)) = post
  /\ calls (stream (session out))
     = calls (sentMessage (stream s) content) ++ repeat CallRecv (S (length pre)).
Proof.
  intros Hdone Hacc Hin Hq Hd out. subst out.
  rewrite (Send_after_quiet callback s content w w1 pre _ inv Hdone Hacc Hin Hq Hd).
  unfold runLoop, absorbed, received, entering; simpl.
  repeat split.
  - now rewrite <- app_assoc, <- repeat_cons.
Qed.

(** C2 (as amended).  A backend error event ends [Send] with an error whose
    text is "LLM error: " followed by the event's message, whatever chunks
    (and other quiet events) came before it, provided the callback failed on
    none of them.  The event's code is not part of the error. *)
Theorem Send_error_event (s : ChatSession) (content : string) (w w1 : W)
  (pre : list llmpb.ChatResponse) (er : llmpb.ErrorResponse)
  (post : list Delivery) (inv : list StreamChunk) :
  done s = false ->
  accepts (stream s) ->
  inbox (stream s)
  = map Deliver pre ++ Deliver (llmpb.ChatResponse_Error er) :: post ->
  forallb quiet pre = true ->
  deliver callback (chunksOf pre) w = (w1, inv, None) ->
  let out := Send s content callback w in
  returned out
  = Some (Err (errorString ("LLM error: " ++ llmpb.error_Message er)))
  /\ invoked out = inv
  /\ inbox (stream (session out)) = post.
Proof.
  intros Hdone Hacc Hin Hq Hd out. subst out.
  rewrite (Send_after_quiet callback s content w w1 pre _ inv Hdone Hacc Hin Hq Hd).
  unfold runLoop, absorbed, received, entering; simpl.
  repeat split.
Qed.

(** C5 (as amended).  When the backend's events end with end-of-stream and
    hold no completion, no error and no abort event, the transport reports no
    receive error, and the callback fails on no chunk, [Send] returns without
    error a response whose content is the concatenation, in arrival order, of
    the contents of all chunks, every other field being zero. *)
Theorem Send_without_completion (s : ChatSession) (content : string) (w w1 : W)
  (evs : list llmpb.ChatResponse) (inv : list StreamChunk) :
  done s = false ->
  accepts (stream s) ->
  inbox (stream s) = map Deliver evs ->
  forallb quiet evs = true ->
  deliver callback (chunksOf evs) w = (w1, inv, None) ->
  let out := Send s content callback w in
  returned out
  = Some (Ok {| Content := textOf (chunksOf evs); ChatResponse_Model := "";
                InputTokens := 0%Z; OutputTokens := 0%Z; CostUSD := 0%float;
                LatencyMs := 0%Z; StopReason := "" |})
  /\ invoked out = inv
  /\ inbox (stream (session out)) = [].
Proof.
  intros Hdone Hacc Hin Hq Hd out. subst out.
  rewrite <- (app_nil_r (map Deliver evs)) in Hin.
  rewrite (Send_after_quiet callback s content w w1 evs _ inv Hdone Hacc Hin Hq Hd).
  unfold runLoop, absorbed, received, entering; simpl.
  repeat split.
Qed.

End SendTheorems.

(** C4.  For the backend events chunk (index 0), chunk (index 1),
    completion, end-of-stream, and a callback that accepts both chunks,
    [Send] invokes the callback exactly twice, on the first chunk and then on
    the second, each time with that chunk's content; the response's content
    is the completion's full content, whatever the chunks held, and its token
    counts, cost and latency are the completion's. *)
Theorem Send_two_chunks_then_completion {W : Type} (s : ChatSession)
  (content : string) (cb : StreamChunk -> W -> W * option error) (w w1 w2 : W)
  (c0 c1 : llmpb.ChunkResponse) (comp : llmpb.CompletionResponse) :
  done s = false ->
  accepts (stream s) ->
  llmpb.chunk_Index c0 = 0%Z ->
  llmpb.chunk_Index c1 = 1%Z ->
  inbox (stream s)
  = [Deliver (llmpb.ChatResponse_Chunk c0); Deliver (llmpb.ChatResponse_Chunk c1);
     Deliver (llmpb.ChatResponse_Completion comp)] ->
  cb (chunkOf c0) w = (w1, None) ->
  cb (chunkOf c1) w1 = (w2, None) ->
  let out := Send s content (Some cb) w in
  invoked out
  = [{| StreamChunk_Content := llmpb.chunk_Content c0; Index := 0%Z |};
     {| StreamChunk_Content := llmpb.chunk_Content c1; Index := 1%Z |}]
  /\ world out = w2
  /\ exists resp,
       returned out = Some (Ok resp)
       /\ Content resp = llmpb.FullContent comp
       /\ InputTokens resp = llmpb.InputTokens comp
       /\ OutputTokens resp = llmpb.OutputTokens comp
       /\ CostUSD resp = llmpb.CostUsd comp
       /\ LatencyMs resp = llmpb.LatencyMs comp.
Proof.
  intros Hdone Hacc Hi0 Hi1 Hin Hcb0 Hcb1 out. subst out.
  assert (Hd : deliver (Some cb)
                 (chunksOf [llmpb.ChatResponse_Chunk c0; llmpb.ChatResponse_Chunk c1]) w
               = (w2, [chunkOf c0; chunkOf c1], None)).
  { simpl. now rewrite Hcb0, Hcb1. }
  rewrite (Send_after_quiet (Some cb) s content w w2
             [llmpb.ChatResponse_Chunk c0; llmpb.ChatResponse_Chunk c1]
             [Deliver (llmpb.ChatResponse_Completion comp)] _
             Hdone Hacc Hin eq_refl Hd).
  unfold runLoop, absorbed, received, entering, chunkOf; simpl.
  rewrite Hi0, Hi1.
  split; [reflexivity|]. split; [reflexivity|].
  eexists. split; [reflexivity|]. simpl. repeat split.
Qed.

(** C6.  When the callback fails on a chunk, [Send] stops receiving there
    and returns the callback's own error: the chunk is the last one the
    callback is invoked on, and what the backend sends after it stays on the
    stream. *)
Theorem Send_callback_failure {W : Type} (s : ChatSession) (content : string)
  (cb : StreamChunk -> W -> W * option error) (w w1 w2 : W)
  (pre : list llmpb.ChatResponse) (c : llmpb.ChunkResponse)
  (post : list Delivery) (e : error) :
  done s = false ->
  accepts (stream s) ->
  inbox (stream s)
  = map Deliver pre ++ Deliver (llmpb.ChatResponse_Chunk c) :: post ->
  forallb quiet pre = true ->
  feed cb (chunksOf pre) w = (w1, chunksOf pre, None) ->
  cb (chunkOf c) w1 = (w2, Some e) ->
  let out := Send s content (Some cb) w in
  returned out = Some (Err e)
  /\ invoked out = chunksOf pre ++ [chunkOf c]
  /\ world out = w2
  /\ inbox (stream (session out)) = post
  /\ calls (stream (session out))
     = calls (sentMessage (stream s) content) ++ repeat CallRecv (S (length pre)).
Proof.
  intros Hdone Hacc Hin Hq Hfeed Hcb out. subst out.
  rewrite (Send_after_quiet (Some cb) s content w w1 pre _ (chunksOf pre)
             Hdone Hacc Hin Hq Hfeed).
  erewrite runLoop_callback_fails; [| reflexivity | exact Hcb].
  unfold absorbed, received, entering; simpl.
  repeat split.
  now rewrite <- app_assoc, <- repeat_cons.
Qed.

(** ** After [Close] *)

(** [Send] on a closed session fails at once and leaves the session, and
    with it the stream and its log, as they were. *)
Lemma Send_after_Close {W : Type} (s : ChatSession) (content : string)
  (callback : StreamCallback W) (w : W) :
  let closed := fst (Close s) in
  let out := Send closed content callback w in
  returned out = Some (Err (errorString "session is closed"))
  /\ session out = closed
  /\ invoked out = []
  /\ world out = w.
Proof. unfold Send, Close; simpl. repeat split. Qed.

(** A second [Close] leaves [done] set; it calls [CloseSend] once more. *)
Lemma Close_twice (s : ChatSession) :
  let once := fst (Close s) in
  let twice := fst (Close once) in
  done once = true
  /\ done twice = true
  /\ calls (stream twice) = calls (stream once) ++ [CallCloseSend]
  /\ transmitted (stream twice) = transmitted (stream once).
Proof.
  unfold Close; simpl. repeat split.
  unfold transmitted; simpl. rewrite !flat_map_app; simpl. now rewrite !app_nil_r.
Qed.

(** C3, where the code departs from it.  [Abort] has no test of [done]:
    called after [Close], it hands an abort message to the stream, and
    returns what the transport answers. *)
Theorem Abort_after_Close_transmits (s : ChatSession) (reason : string) :
  done (fst (Close s)) = true
  /\ calls (stream (fst (Abort (fst (Close s)) reason)))
     = calls (stream s)
       ++ [CallCloseSend;
           CallSend (llmpb.ChatRequest_Abort {| llmpb.abort_Reason := reason |})]
  /\ snd (Abort (fst (Close s)) reason) = hd None (sendErrs (stream s)).
Proof.
  unfold Abort, Close, stream_CloseSend, stream_Send, logCall; simpl.
  destruct (sendErrs (stream s)) as [|o rest]; simpl;
    rewrite <- app_assoc; repeat split.
Qed.

(** ** The session on concrete streams *)

(** C1, the failing input.  The backend sends a completion and then one
    more chunk.  [Send] returns after a single receive: the chunk is still on
    the stream, the callback has seen nothing, and end-of-stream was never
    reported. *)
Lemma Send_leaves_trailing_chunk :
  returned (Send (openSession [completion "Hello"; chunk "!" 1]) "hi" recorder [])
  = Some (Ok (responseOf (completionResponse "Hello")))
  /\ invoked (Send (openSession [completion "Hello"; chunk "!" 1]) "hi" recorder [])
     = []
  /\ inbox (stream (session
       (Send (openSession [completion "Hello"; chunk "!" 1]) "hi" recorder [])))
     = [Deliver (chunk "!" 1)]
  /\ calls (stream (session
       (Send (openSession [completion "Hello"; chunk "!" 1]) "hi" recorder [])))
     = [CallSend (llmpb.ChatRequest_Message {| llmpb.user_Content := "hi" |});
        CallRecv].
Proof. repeat split. Qed.

(** [Send_stops_at_completion] on a chunk, a completion and a late chunk. *)
Lemma Send_stops_at_completion_witness :
  done (openSession [chunk "He" 0; completion "Hello"; chunk "!" 1]) = false
  /\ accepts (stream (openSession [chunk "He" 0; completion "Hello"; chunk "!" 1]))
  /\ returned (Send (openSession [chunk "He" 0; completion "Hello"; chunk "!" 1])
                 "hi" recorder [])
     = Some (Ok (responseOf (completionResponse "Hello")))
  /\ inbox (stream (session
       (Send (openSession [chunk "He" 0; completion "Hello"; chunk "!" 1])
          "hi" recorder [])))
     = [Deliver (chunk "!" 1)].
Proof.
  split; [reflexivity|]. split; [reflexivity|].
  destruct (Send_stops_at_completion recorder
              (openSession [chunk "He" 0; completion "Hello"; chunk "!" 1]) "hi"
              [] [chunkOf (chunkResponse "He" 0)]
              [chunk "He" 0] (completionResponse "Hello") [Deliver (chunk "!" 1)]
              [chunkOf (chunkResponse "He" 0)]
              eq_refl eq_refl eq_refl eq_refl eq_refl)
    as (Hret & _ & _ & Hin & _).
  split; assumption.
Defined.

(** C2, as stated, fails.  Two error events with the same message and
    different codes end [Send] with one and the same error: the code is not
    in it. *)
Lemma Send_error_drops_code :
  llmpb.error_Code (errorResponse "rate_limit" "slow down")
  <> llmpb.error_Code (errorResponse "overloaded" "slow down")
  /\ returned (Send (openSession [backendError "rate_limit" "slow down"])
                 "hi" recorder [])
     = Some (Err (errorString "LLM error: slow down"))
  /\ returned (Send (openSession [backendError "overloaded" "slow down"])
                 "hi" recorder [])
     = Some (Err (errorString "LLM error: slow down")).
Proof. repeat split. discriminate. Qed.

(** [Send_error_event] on a chunk followed by an error event. *)
Lemma Send_error_event_witness :
  done (openSession [chunk "He" 0; backendError "rate_limit" "slow down"]) = false
  /\ accepts (stream (openSession [chunk "He" 0; backendError "rate_limit" "slow down"]))
  /\ returned (Send (openSession [chunk "He" 0; backendError "rate_limit" "slow down"])
                 "hi" recorder [])
     = Some (Err (errorString "LLM error: slow down")).
Proof.
  split; [reflexivity|]. split; [reflexivity|].
  destruct (Send_error_event recorder
              (openSession [chunk "He" 0; backendError "rate_limit" "slow down"]) "hi"
              [] [chunkOf (chunkResponse "He" 0)]
              [chunk "He" 0] (errorResponse "rate_limit" "slow down") []
              [chunkOf (chunkResponse "He" 0)]
              eq_refl eq_refl eq_refl eq_refl eq_refl)
    as (Hret & _).
  exact Hret.
Defined.

(** [Send_two_chunks_then_completion] on the chunks "He" and "llo" and a
    completion whose full content is another text. *)
Lemma Send_two_chunks_then_completion_witness :
  done (openSession [chunk "He" 0; chunk "llo" 1; completion "Hello, world"]) = false
  /\ invoked (Send (openSession [chunk "He" 0; chunk "llo" 1; completion "Hello, world"])
                "hi" recorder [])
     = [{| StreamChunk_Content := "He"; Index := 0%Z |};
        {| StreamChunk_Content := "llo"; Index := 1%Z |}]
  /\ exists resp,
       returned (Send (openSession [chunk "He" 0; chunk "llo" 1;
                                    completion "Hello, world"]) "hi" recorder [])
       = Some (Ok resp)
       /\ Content resp = "Hello, world".
Proof.
  split; [reflexivity|].
  destruct (Send_two_chunks_then_completion
              (openSession [chunk "He" 0; chunk "llo" 1; completion "Hello, world"])
              "hi" (fun chunk seen => (seen ++ [chunk], None))
              [] [chunkOf (chunkResponse "He" 0)]
              [chunkOf (chunkResponse "He" 0); chunkOf (chunkResponse "llo" 1)]
              (chunkResponse "He" 0) (chunkResponse "llo" 1)
              (completionResponse "Hello, world")
              eq_refl eq_refl eq_refl eq_refl eq_refl eq_refl eq_refl)
    as (Hinv & _ & resp & Hret & Hcontent & _).
  split; [exact Hinv|]. exists resp. split; assumption.
Defined.

(** C5, as stated, fails.  These events hold no completion and end with
    end-of-stream, and [Send] returns an error, not the text of the chunk. *)
Lemma Send_error_without_completion :
  existsb (fun r => match r with
                    | llmpb.ChatResponse_Completion _ => true
                    | _ => false
                    end) [chunk "He" 0; backendError "rate_limit" "slow down"]
  = false
  /\ returned (Send (openSession [chunk "He" 0; backendError "rate_limit" "slow down"])
                 "hi" recorder [])
     = Some (Err (errorString "LLM error: slow down"))
  /\ inbox (stream (session
       (Send (openSession [chunk "He" 0; backendError "rate_limit" "slow down"])
          "hi" recorder [])))
     = [].
Proof. repeat split. Qed.

(** [Send_without_completion] on two chunks and end-of-stream. *)
Lemma Send_without_completion_witness :
  done (openSession [chunk "He" 0; chunk "llo" 1]) = false
  /\ accepts (stream (openSession [chunk "He" 0; chunk "llo" 1]))
  /\ forallb quiet [chunk "He" 0; chunk "llo" 1] = true
  /\ returned (Send (openSession [chunk "He" 0; chunk "llo" 1]) "hi" recorder [])
     = Some (Ok {| Content := "Hello"; ChatResponse_Model := "";
                   InputTokens := 0%Z; OutputTokens := 0%Z; CostUSD := 0%float;
                   LatencyMs := 0%Z; StopReason := "" |}).
Proof.
  split; [reflexivity|]. split; [reflexivity|]. split; [reflexivity|].
  destruct (Send_without_completion recorder
              (openSession [chunk "He" 0; chunk "llo" 1]) "hi"
              [] [chunkOf (chunkResponse "He" 0); chunkOf (chunkResponse "llo" 1)]
              [chunk "He" 0; chunk "llo" 1]
              [chunkOf (chunkResponse "He" 0); chunkOf (chunkResponse "llo" 1)]
              eq_refl eq_refl eq_refl eq_refl eq_refl)
    as (Hret & _).
  exact Hret.
Defined.

(** [Send_callback_failure] with a callback that fails on the second of
    three chunks. *)
Lemma Send_callback_failure_witness :
  done (openSession [chunk "He" 0; chunk "llo" 1; chunk "!" 2]) = false
  /\ returned (Send (openSession [chunk "He" 0; chunk "llo" 1; chunk "!" 2])
                 "hi" failsAtOne [])
     = Some (Err (errorString "stop"))
  /\ invoked (Send (openSession [chunk "He" 0; chunk "llo" 1; chunk "!" 2])
                "hi" failsAtOne [])
     = [chunkOf (chunkResponse "He" 0); chunkOf (chunkResponse "llo" 1)]
  /\ inbox (stream (session
       (Send (openSession [chunk "He" 0; chunk "llo" 1; chunk "!" 2])
          "hi" failsAtOne [])))
     = [Deliver (chunk "!" 2)].
Proof.
  split; [reflexivity|].
  destruct (Send_callback_failure
              (openSession [chunk "He" 0; chunk "llo" 1; chunk "!" 2]) "hi"
              (fun chunk seen =>
                 (seen ++ [chunk],
                  if (Index chunk =? 1)%Z then Some (errorString "stop") else None))
              [] [chunkOf (chunkResponse "He" 0)]
              [chunkOf (chunkResponse "He" 0); chunkOf (chunkResponse "llo" 1)]
              [chunk "He" 0] (chunkResponse "llo" 1) [Deliver (chunk "!" 2)]
              (errorString "stop")
              eq_refl eq_refl eq_refl eq_refl eq_refl eq_refl)
    as (Hret & Hinv & _ & Hin & _).
  repeat split; assumption.
Defined.

(** ** The connector *)

Section ConnectorFacts.
Context {lib : GoLib}.

(** Address discovery creates no connection, and leaves the backend's
    answers and the API key alone. *)
Lemma fetchConfig_frame (c : LLMClient) (net : Net) :
  conns (fst (fetchConfig c net)) = conns net
  /\ chatReply (fst (fetchConfig c net)) = chatReply net
  /\ dialReply (fst (fetchConfig c net)) = dialReply net
  /\ dials (fst (fetchConfig c net)) = dials net.
Proof.
  unfold fetchConfig.
  destruct (baseURL c =? "")%string; [now repeat split|].
  destruct (http_NewRequest _); [now repeat split|].
  destruct (configReply net _) as [e|status body]; [now repeat split|].
  destruct (negb (status =? 200)%Z); [now repeat split|].
  destruct (json_llmConfigResponse body); now repeat split.
Qed.

Lemma resolveAddr_frame (c c' : LLMClient) (net net' : Net) (r : result string) :
  resolveAddr c net = (c', net', r) ->
  conns net' = conns net
  /\ chatReply net' = chatReply net
  /\ dialReply net' = dialReply net
  /\ dials net' = dials net
  /\ LLMClient_apiKey c' = LLMClient_apiKey c
  /\ conn c' = conn c.
Proof.
  unfold resolveAddr.
  destruct (grpcAddr c =? "")%string.
  - pose proof (fetchConfig_frame c net) as (H1 & H2 & H3 & H4).
    destruct (fetchConfig c net) as [net1 [config|e]]; simpl in *.
    + destruct (negb (Available config)).
      * intros H; inversion H; subst. now repeat split.
      * destruct (url_Hostname (baseURL c)); intros H; inversion H; subst;
          now repeat split.
    + intros H; inversion H; subst. now repeat split.
  - intros H; inversion H; subst. now repeat split.
Qed.

(** What a call of [connect] that returns nil has done. *)
Lemma connect_nil (c c1 : LLMClient) (net net1 : Net) :
  connect c net = (c1, net1, None) ->
  (exists h, conn c1 = Some h)
  /\ conns net1 = match conn c with Some _ => conns net | None => S (conns net) end
  /\ chatReply net1 = chatReply net
  /\ LLMClient_apiKey c1 = LLMClient_apiKey c.
Proof.
  unfold connect. destruct (conn c) as [h|] eqn:Hconn.
  - intros H; inversion H; subst. repeat split; trivial. now exists h.
  - destruct (resolveAddr c net) as [[c' net'] [addr|e]] eqn:Hres;
      [|intros H; inversion H].
    apply resolveAddr_frame in Hres as (H1 & H2 & H3 & H4 & H5 & H6).
    destruct (dialReply net' _); intros H; inversion H; subst; simpl.
    repeat split; try assumption; try congruence. now eexists.
Qed.

Lemma connects_connected (n : nat) (c : LLMClient) (net : Net) (h : ClientConn) :
  conn c = Some h ->
  connects n c net = (c, net, repeat None n).
Proof.
  intros Hconn. induction n as [|n IH]; [reflexivity|].
  simpl. unfold connect at 1. rewrite Hconn. now rewrite IH.
Qed.

(** C9.  After a call of [connect] that succeeded, the client holds a
    connection, and every further call returns nil and changes nothing:
    neither the client (its connection handle, its resolved address) nor the
    network (no lookup, no dial, no connection).  The succeeding call itself
    created one connection if the client had none, and none otherwise. *)
Theorem connect_idempotent (c c1 : LLMClient) (net net1 : Net) :
  connect c net = (c1, net1, None) ->
  (exists h, conn c1 = Some h)
  /\ conns net1 = match conn c with Some _ => conns net | None => S (conns net) end
  /\ forall n, connects n c1 net1 = (c1, net1, repeat None n).
Proof.
  intros H. destruct (connect_nil c c1 net net1 H) as ([h Hh] & Hconns & _).
  split; [now exists h|]. split; [exact Hconns|].
  intros n. now apply connects_connected with (h := h).
Qed.

End ConnectorFacts.

(** [connect_idempotent] on a client that discovers its address: one
    lookup, one dial, and three more calls that do nothing. *)
Lemma connect_idempotent_witness :
  fst (fst (@connect exampleLib exampleClient (exampleNet [])))
  = {| LLMClient_apiKey := "lv_key"; baseURL := "https://levee.test";
       grpcAddr := "levee.test:9889"; useTLS := true;
       conn := Some 0; client := Some 0 |}
  /\ snd (@connect exampleLib exampleClient (exampleNet [])) = None
  /\ conns (snd (fst (@connect exampleLib exampleClient (exampleNet [])))) = 1
  /\ @connects exampleLib 3
       (fst (fst (@connect exampleLib exampleClient (exampleNet []))))
       (snd (fst (@connect exampleLib exampleClient (exampleNet []))))
     = (fst (fst (@connect exampleLib exampleClient (exampleNet []))),
        snd (fst (@connect exampleLib exampleClient (exampleNet []))),
        [None; None; None]).
Proof.
  split; [reflexivity|]. split; [reflexivity|].
  destruct (@connect_idempotent exampleLib exampleClient
              (fst (fst (@connect exampleLib exampleClient (exampleNet []))))
              (exampleNet [])
              (snd (fst (@connect exampleLib exampleClient (exampleNet []))))
              eq_refl) as (_ & Hconns & Hagain).
  split; [exact Hconns|]. exact (Hagain 3).
Defined.

(** ** [ChatStream] *)

Section ChatStreamFacts.
Context {lib : GoLib} {W : Type}.

(** A session [NewChatSession] returns is open, and sits on a stream the
    backend handed out, to which the start envelope, and nothing else, has
    been transmitted. *)
Lemma NewChatSession_Ok (c c1 : LLMClient) (net net1 : Net) (req : ChatRequest)
  (s : ChatSession) :
  NewChatSession c net req = (c1, net1, Ok s) ->
  done s = false
  /\ exists k st0,
       chatReply net k = Ok st0
       /\ transmitted (stream s)
          = transmitted st0 ++ [startEnvelope (LLMClient_apiKey c) req].
Proof.
  unfold NewChatSession.
  destruct (connect c net) as [[c' net'] [e|]] eqn:Hconn;
    [intros H; inversion H|].
  apply connect_nil in Hconn as (_ & _ & Hchat & Hkey).
  unfold client_Chat.
  destruct (chatReply net' (opened net')) as [st0|e] eqn:Hst0;
    [|intros H; inversion H].
  pose proof (transmitted_Send st0 (startEnvelope (LLMClient_apiKey c') req)) as Ht.
  destruct (stream_Send st0 _) as [st [e|]]; intros H; inversion H; subst.
  split; [reflexivity|].
  exists (opened net'), st0. rewrite <- Hchat, <- Hkey. now split.
Qed.

(** C10.  [ChatStream] returns an error when [req.Messages] is empty and
    when the role of its last message is not "user".  Whenever it has opened
    a session, all it transmitted on that session's stream is a start
    envelope that carries no message and, if it went on, one user message
    with the content of the last message of [req.Messages]: the messages
    before the last are sent nowhere. *)
Theorem ChatStream_sends_last_message_only (c : LLMClient) (net : Net)
  (req : ChatRequest) (callback : StreamCallback W) (w : W) :
  (Messages req = [] ->
   exists e, cs_returned (ChatStream c net req callback w) = Some (Err e))
  /\ (forall m ms,
        Messages req = m :: ms ->
        ChatMessage_Role (last ms m) <> "user" ->
        exists e, cs_returned (ChatStream c net req callback w) = Some (Err e))
  /\ (forall s, cs_session (ChatStream c net req callback w) = Some s ->
      exists k st0,
        chatReply net k = Ok st0
        /\ transmitted (stream s)
           = transmitted st0
             ++ llmpb.ChatRequest_Start
                  {| llmpb.start_ApiKey := LLMClient_apiKey c;
                     llmpb.start_SystemPrompt := SystemPrompt req;
                     llmpb.start_Model := Model req;
                     llmpb.start_MaxTokens := MaxTokens req;
                     llmpb.start_Temperature := Temperature req;
                     llmpb.start_Messages := [] |}
                :: match userTurn req with
                   | Some content =>
                       [llmpb.ChatRequest_Message {| llmpb.user_Content := content |}]
                   | None => []
                   end).
Proof.
  unfold ChatStream, userTurn.
  destruct (NewChatSession c net _) as [[c1 net1] [s0|e]] eqn:Hnew.
  - apply NewChatSession_Ok in Hnew as (Hdone & k & st0 & Hk & Ht).
    split; [|split].
    + intros Hnil. rewrite Hnil. eexists; reflexivity.
    + intros m ms Hms Hrole. rewrite Hms.
      apply String.eqb_neq in Hrole. rewrite Hrole. eexists; reflexivity.
    + intros s Hs. simpl in Hs. inversion Hs; subst s; clear Hs.
      exists k, st0. split; [exact Hk|].
      cbn [stream]. rewrite transmitted_logCall, app_nil_r.
      destruct (Messages req) as [|m ms]; simpl.
      * rewrite Ht. reflexivity.
      * destruct (ChatMessage_Role (last ms m) =? "user")%string; simpl.
        -- rewrite (Send_transmitted callback s0 _ w Hdone), Ht.
           now rewrite <- app_assoc.
        -- rewrite Ht. reflexivity.
  - split; [|split].
    + intros _; eexists; reflexivity.
    + intros m ms _ _; eexists; reflexivity.
    + intros s Hs. discriminate.
Qed.

End ChatStreamFacts.

(** [ChatStream_sends_last_message_only] on a history of three messages:
    the stream sees the start envelope and "second". *)
Lemma ChatStream_sends_last_message_only_witness :
  exists s,
    cs_session (@ChatStream exampleLib _ exampleClient
                  (exampleNet [chunk "ok" 0; completion "ok"])
                  exampleRequest recorder [])
    = Some s
    /\ transmitted (stream s)
       = [llmpb.ChatRequest_Start
            {| llmpb.start_ApiKey := "lv_key";
               llmpb.start_SystemPrompt := "be brief";
               llmpb.start_Model := "sonnet";
               llmpb.start_MaxTokens := 1024%Z;
               llmpb.start_Temperature := 0.5%float;
               llmpb.start_Messages := [] |};
          llmpb.ChatRequest_Message {| llmpb.user_Content := "second" |}].
Proof.
  eexists. split; [reflexivity|].
  destruct (@ChatStream_sends_last_message_only exampleLib _ exampleClient
              (exampleNet [chunk "ok" 0; completion "ok"])
              exampleRequest recorder []) as (_ & _ & Hsent).
  destruct (Hsent _ eq_refl) as (k & st0 & Hk & Ht).
  simpl in Hk. inversion Hk; subst st0. exact Ht.
Defined.

(** ** The relay *)

(** The error frame [sendError] writes. *)
Lemma sendError_writes (s : wsSession) (code message : string) (retryable : bool) :
  sendError s code message retryable
  = {| ws_conn := ws_conn s
                  ++ [{| frame_Type := "error";
                         frame_Data := DataError {| Code := code; Message := message;
                                                    Retryable := retryable |} |}];
       llm := llm s; ws_stream := ws_stream s; started := started s;
       readers := readers s |}.
Proof. reflexivity. Qed.


Section RelayFacts.
Context {lib : GoLib}.

(** [handleMessage] on a session that has not started. *)
Lemma handleMessage_not_started (s : wsSession) (data : RawMessage) :
  started s = false ->
  handleMessage s data = sendError s "not_started" "Session not started" false.
Proof. intros H. unfold handleMessage, notStarted. now rewrite H. Qed.



(** C7.  A frame of type "message" that reaches a relay session whose
    [started] flag is false gets one answer, an error frame with the code
    [not_started], and nothing else happens: the backend stream (if a failed
    start left one), the client and the network are as they were. *)
Theorem message_before_start (s : wsSession) (net : Net) (frame : string)
  (data : RawMessage) :
  json_WSMessage frame
  = Ok {| WSMessage_Type := "message"; WSMessage_Data := data |} ->
  started s = false ->
  dispatch s net frame
  = ({| ws_conn := ws_conn s
                   ++ [{| frame_Type := "error";
                          frame_Data := DataError {| Code := "not_started";
                                                     Message := "Session not started";
                                                     Retryable := false |} |}];
        llm := llm s; ws_stream := ws_stream s; started := false;
        readers := readers s |}, net).
Proof.
  intros Hframe Hstarted. unfold dispatch. rewrite Hframe; simpl.
  rewrite (handleMessage_not_started s data Hstarted), sendError_writes.
  now rewrite Hstarted.
Qed.


End RelayFacts.

(** [message_before_start] on a socket just accepted. *)
Lemma message_before_start_witness :
  @json_WSMessage exampleLib "message Hello"
  = Ok {| WSMessage_Type := "message"; WSMessage_Data := "Hello" |}
  /\ started acceptedSocket = false
  /\ @dispatch exampleLib acceptedSocket (exampleNet []) "message Hello"
     = ({| ws_conn := [{| frame_Type := "error";
                          frame_Data := DataError {| Code := "not_started";
                                                     Message := "Session not started";
                                                     Retryable := false |} |}];
           llm := exampleClient; ws_stream := None; started := false;
           readers := 0 |}, exampleNet []).
Proof.
  split; [reflexivity|]. split; [reflexivity|].
  exact (@message_before_start exampleLib acceptedSocket (exampleNet [])
           "message Hello" "Hello" eq_refl eq_refl).
Defined.


(** * Further facts *)

(** ** [Send]: the other ways a turn ends *)

Section SendEndings.
Context {W : Type}.
Variable callback : StreamCallback W.

(** What [Send] leaves and returns when a completion ends the turn. *)
Lemma Send_completion_outcome (s : ChatSession) (content : string) (w w1 : W)
  (pre : list llmpb.ChatResponse) (comp : llmpb.CompletionResponse)
  (post : list Delivery) (inv : list StreamChunk) :
  done s = false ->
  accepts (stream s) ->
  inbox (stream s)
  = map Deliver pre ++ Deliver (llmpb.ChatResponse_Completion comp) :: post ->
  forallb quiet pre = true ->
  deliver callback (chunksOf pre) w = (w1, inv, None) ->
  Send s content callback w
  = {| session :=
         withStream s
           (received (sentMessage (stream s) content) (S (length pre)) post);
       world := w1; invoked := inv;
       returned := Some (Ok (responseOf comp)) |}.
Proof.
  intros Hdone Hacc Hin Hq Hd.
  rewrite (Send_after_quiet callback s content w w1 pre _ inv Hdone Hacc Hin Hq Hd).
  unfold runLoop, absorbed, received, entering, withStream; simpl.
  now rewrite <- app_assoc, <- repeat_cons.
Qed.

(** An abort event ends [Send] with an error that names the reason; what
    follows it stays on the stream. *)
Theorem Send_aborted_event (s : ChatSession) (content : string) (w w1 : W)
  (pre : list llmpb.ChatResponse) (ab : llmpb.AbortedResponse)
  (post : list Delivery) (inv : list StreamChunk) :
  done s = false ->
  accepts (stream s) ->
  inbox (stream s)
  = map Deliver pre ++ Deliver (llmpb.ChatResponse_Aborted ab) :: post ->
  forallb quiet pre = true ->
  deliver callback (chunksOf pre) w = (w1, inv, None) ->
  returned (Send s content callback w)
  = Some (Err (errorString ("generation aborted: " ++ llmpb.aborted_Reason ab)))
  /\ invoked (Send s content callback w) = inv
  /\ inbox (stream (session (Send s content callback w))) = post.
Proof.
  intros Hdone Hacc Hin Hq Hd.
  rewrite (Send_after_quiet callback s content w w1 pre _ inv Hdone Hacc Hin Hq Hd).
  unfold runLoop, absorbed, received, entering; simpl.
  repeat split.
Qed.

(** A transport error on receive ends [Send] with that error wrapped: its
    text is "stream receive error: " and the transport's text.  The chunks
    received so far are dropped, not returned. *)
Theorem Send_receive_error (s : ChatSession) (content : string) (w w1 : W)
  (pre : list llmpb.ChatResponse) (e : error)
  (post : list Delivery) (inv : list StreamChunk) :
  done s = false ->
  accepts (stream s) ->
  inbox (stream s) = map Deliver pre ++ TransportError e :: post ->
  forallb quiet pre = true ->
  deliver callback (chunksOf pre) w = (w1, inv, None) ->
  returned (Send s content callback w)
  = Some (Err (wrapError "stream receive error: " e))
  /\ Error (wrapError "stream receive error: " e)
     = ("stream receive error: " ++ Error e)%string
  /\ invoked (Send s content callback w) = inv.
Proof.
  intros Hdone Hacc Hin Hq Hd.
  rewrite (Send_after_quiet callback s content w w1 pre _ inv Hdone Hacc Hin Hq Hd).
  unfold runLoop, absorbed, received, entering; simpl.
  repeat split.
Qed.

(** When the transport refuses the user message, [Send] returns that error
    wrapped and receives nothing: no event is taken off the stream and the
    callback is not invoked. *)
Theorem Send_transmit_failure (s : ChatSession) (content : string) (w : W)
  (e : error) :
  done s = false ->
  hd None (sendErrs (stream s)) = Some e ->
  returned (Send s content callback w)
  = Some (Err (wrapError "failed to send message: " e))
  /\ invoked (Send s content callback w) = []
  /\ world (Send s content callback w) = w
  /\ inbox (stream (session (Send s content callback w))) = inbox (stream s)
  /\ calls (stream (session (Send s content callback w)))
     = calls (stream s)
       ++ [CallSend (llmpb.ChatRequest_Message {| llmpb.user_Content := content |})].
Proof.
  intros Hdone Hrefuse. unfold Send, stream_Send. rewrite Hdone.
  destruct (sendErrs (stream s)) as [|o rest]; simpl in Hrefuse; [discriminate|].
  subst o. simpl. repeat split.
Qed.

(** Two turns on one session.  The events of the second turn, left on the
    stream by the first [Send], are what the second [Send] receives: each
    call returns its own completion, and the two user messages are all that
    was transmitted. *)
Theorem Send_two_turns (s : ChatSession) (first second : string) (w w1 w2 : W)
  (pre1 pre2 : list llmpb.ChatResponse) (comp1 comp2 : llmpb.CompletionResponse)
  (post : list Delivery) (inv1 inv2 : list StreamChunk) :
  done s = false ->
  sendErrs (stream s) = [] ->
  inbox (stream s)
  = map Deliver pre1 ++ Deliver (llmpb.ChatResponse_Completion comp1)
    :: map Deliver pre2 ++ Deliver (llmpb.ChatResponse_Completion comp2) :: post ->
  forallb quiet pre1 = true ->
  forallb quiet pre2 = true ->
  deliver callback (chunksOf pre1) w = (w1, inv1, None) ->
  deliver callback (chunksOf pre2) w1 = (w2, inv2, None) ->
  let turn1 := Send s first callback w in
  let turn2 := Send (session turn1) second callback (world turn1) in
  returned turn1 = Some (Ok (responseOf comp1))
  /\ returned turn2 = Some (Ok (responseOf comp2))
  /\ invoked turn1 = inv1
  /\ invoked turn2 = inv2
  /\ world turn2 = w2
  /\ inbox (stream (session turn2)) = post
  /\ transmitted (stream (session turn2))
     = transmitted (stream s)
       ++ [llmpb.ChatRequest_Message {| llmpb.user_Content := first |};
           llmpb.ChatRequest_Message {| llmpb.user_Content := second |}].
Proof.
  intros Hdone Hsend Hin Hq1 Hq2 Hd1 Hd2 turn1 turn2.
  assert (Hacc : accepts (stream s)) by (unfold accepts; now rewrite Hsend).
  assert (H1 : turn1 = _)
    by exact (Send_completion_outcome s first w w1 pre1 comp1 _ inv1
                Hdone Hacc Hin Hq1 Hd1).
  assert (Hacc2 : accepts (stream (session turn1))).
  { rewrite H1. unfold accepts; simpl. now rewrite Hsend. }
  assert (Hdone2 : done (session turn1) = false) by (now rewrite H1).
  assert (Hin2 : inbox (stream (session turn1))
                 = map Deliver pre2
                   ++ Deliver (llmpb.ChatResponse_Completion comp2) :: post)
    by (now rewrite H1).
  assert (Hd2' : deliver callback (chunksOf pre2) (world turn1) = (w2, inv2, None))
    by (now rewrite H1).
  assert (H2 : turn2 = _)
    by exact (Send_completion_outcome (session turn1) second (world turn1) w2
                pre2 comp2 post inv2 Hdone2 Hacc2 Hin2 Hq2 Hd2').
  assert (Ht : transmitted (stream (session turn2))
               = transmitted (stream s)
                 ++ [llmpb.ChatRequest_Message {| llmpb.user_Content := first |};
                     llmpb.ChatRequest_Message {| llmpb.user_Content := second |}]).
  { unfold turn2. rewrite (Send_transmitted callback _ second _ Hdone2).
    unfold turn1. rewrite (Send_transmitted callback s first w Hdone).
    now rewrite <- app_assoc. }
  repeat split; try exact Ht; try (now rewrite H1); now rewrite H2.
Qed.

End SendEndings.

(** ** [Send]: the events it passes over *)

(** The two loops of a goal, one on a stream and one on that stream
    filtered, related by [Hloop]; the outcomes then agree field by field. *)
Ltac same_turn Hloop :=
  match goal with
  | |- context [runLoop ?cb
                  {| t_stream := ?st; t_fullContent := _; t_completion := _;
                     t_world := _; t_invoked := _ |}] =>
      lazymatch st with
      | context [filter] => fail
      | _ =>
          match goal with
          | |- context [runLoop cb
                          {| t_stream := ?st'; t_fullContent := _;
                             t_completion := _; t_world := _; t_invoked := _ |}] =>
              lazymatch st' with
              | context [filter] =>
                  let Hflow := fresh "Hflow" in
                  let Hvars := fresh "Hvars" in
                  destruct (Hloop st st' eq_refl) as [Hflow Hvars];
                  unfold entering in Hflow, Hvars;
                  destruct (runLoop cb _) as [? ?];
                  destruct (runLoop cb _) as [? ?];
                  simpl in Hflow, Hvars; subst;
                  unfold vars in Hvars; inversion Hvars as [[Hfc Hc Hw Hi]];
                  simpl; unfold afterLoop; rewrite Hfc, Hc; now repeat split
              end
          end
      end
  end.

Section SendIgnores.
Context {W : Type}.
Variable callback : StreamCallback W.

(** One iteration on two streams with the same delivery first in line and
    the same variables. *)
Lemma recvStep_vars (t1 t2 : Turn W) (d : Delivery) (r1 r2 : list Delivery) :
  inbox (t_stream t1) = d :: r1 ->
  inbox (t_stream t2) = d :: r2 ->
  vars t1 = vars t2 ->
  snd (recvStep callback t1) = snd (recvStep callback t2)
  /\ vars (fst (recvStep callback t1)) = vars (fst (recvStep callback t2))
  /\ inbox (t_stream (fst (recvStep callback t1))) = r1
  /\ inbox (t_stream (fst (recvStep callback t2))) = r2.
Proof.
  destruct t1 as [[cl1 ib1 se1 ce1] fc1 comp1 w1 inv1].
  destruct t2 as [[cl2 ib2 se2 ce2] fc2 comp2 w2 inv2].
  unfold vars; simpl. intros Hin1 Hin2 Hvars. inversion Hvars; subst.
  unfold recvStep, stream_Recv; simpl.
  destruct d as [[r|r|r|r|r|r|]|e]; simpl; try (destruct comp2; now repeat split).
  destruct callback as [cb|]; simpl.
  - destruct (cb _ w2) as [w' [e|]]; simpl; [now repeat split|].
    destruct comp2; now repeat split.
  - destruct comp2; now repeat split.
Qed.

(** One iteration on an ignored event. *)
Lemma recvStep_ignored (t : Turn W) (ev : llmpb.ChatResponse) (r : list Delivery) :
  inbox (t_stream t) = Deliver ev :: r ->
  ignored ev = true ->
  t_completion t = None ->
  snd (recvStep callback t) = Continue
  /\ vars (fst (recvStep callback t)) = vars t
  /\ inbox (t_stream (fst (recvStep callback t))) = r.
Proof.
  destruct t as [[cl ib se ce] fc comp w inv]; simpl.
  intros Hin Hig Hcomp; subst.
  unfold recvStep, stream_Recv; simpl.
  destruct ev; simpl in Hig; try discriminate; now repeat split.
Qed.

(** The loop on a stream and on the same stream without the ignored
    events: same exit, same variables. *)
Lemma recvLoop_ignored (ib : list Delivery) :
  forall (fuel1 fuel2 : nat) (t1 t2 : Turn W),
    inbox (t_stream t1) = ib ->
    inbox (t_stream t2) = filter audible ib ->
    vars t1 = vars t2 ->
    t_completion t1 = None ->
    length ib < fuel1 ->
    length (filter audible ib) < fuel2 ->
    snd (recvLoop fuel1 callback t1) = snd (recvLoop fuel2 callback t2)
    /\ vars (fst (recvLoop fuel1 callback t1))
       = vars (fst (recvLoop fuel2 callback t2)).
Proof.
  induction ib as [|d ib IH]; intros fuel1 fuel2 t1 t2 Hin1 Hin2 Hvars Hcomp Hf1 Hf2;
    (destruct fuel1 as [|fuel1]; [simpl in Hf1; lia|]); simpl in Hf1.
  - destruct fuel2 as [|fuel2]; [simpl in Hf2; lia|].
    destruct t1 as [[cl1 ib1 se1 ce1] fc1 comp1 w1 inv1].
    destruct t2 as [[cl2 ib2 se2 ce2] fc2 comp2 w2 inv2].
    unfold vars in Hvars; simpl in *. inversion Hvars; subst. now split.
  - simpl in Hin2, Hf2. destruct (audible d) eqn:Haud.
    + destruct fuel2 as [|fuel2]; [simpl in Hf2; lia|]. simpl in Hf2.
      destruct (recvStep_vars t1 t2 d _ _ Hin1 Hin2 Hvars) as (Hfl & Hv & Hi1 & Hi2).
      cbn [recvLoop].
      pose proof (recvStep_Continue callback t1) as Hcont.
      destruct (recvStep callback t1) as [t1' fl1].
      destruct (recvStep callback t2) as [t2' fl2].
      simpl in Hfl, Hv, Hi1, Hi2. subst fl2.
      destruct fl1; simpl; try (now split).
      destruct (Hcont t1' eq_refl) as [_ Hnone].
      apply IH; trivial; lia.
    + destruct d as [ev|e]; simpl in Haud; [|discriminate].
      apply negb_false_iff in Haud.
      destruct (recvStep_ignored t1 ev ib Hin1 Haud Hcomp) as (Hfl & Hv & Hi).
      cbn [recvLoop].
      pose proof (recvStep_Continue callback t1) as Hcont.
      destruct (recvStep callback t1) as [t1' fl1]. simpl in Hfl, Hv, Hi. subst fl1.
      destruct (Hcont t1' eq_refl) as [_ Hnone].
      apply IH; trivial; [congruence | lia].
Qed.

(** Session-started and tool-call events (and responses with no variant
    set) make no difference to a turn: with them or without them on the
    stream, [Send] returns the same, the callback is invoked on the same
    chunks and leaves the same state. *)
Theorem Send_ignores_events (s : ChatSession) (content : string) (w : W) :
  returned (Send s content callback w)
  = returned (Send (withoutIgnored s) content callback w)
  /\ invoked (Send s content callback w)
     = invoked (Send (withoutIgnored s) content callback w)
  /\ world (Send s content callback w)
     = world (Send (withoutIgnored s) content callback w).
Proof.
  assert (Hloop : forall st st' : ChatClient,
            inbox st' = filter audible (inbox st) ->
            snd (runLoop callback (entering st w))
            = snd (runLoop callback (entering st' w))
            /\ vars (fst (runLoop callback (entering st w)))
               = vars (fst (runLoop callback (entering st' w)))).
  { intros st st' Hin. unfold runLoop.
    apply (recvLoop_ignored (inbox st)); simpl; trivial; try lia.
    rewrite Hin. lia. }
  unfold Send, withoutIgnored, withStream, stream_Send, logCall; simpl.
  destruct (done s); [now repeat split|].
  destruct (sendErrs (stream s)) as [|[e|] rest]; simpl; try (now repeat split).
  - same_turn Hloop.
  - same_turn Hloop.
Qed.

End SendIgnores.

(** ** The connector: failures, discovery, closing *)

Section ConnectorMore.
Context {lib : GoLib}.

(** Resolving the address closes nothing, and leaves an address set when
    it succeeds. *)
Lemma resolveAddr_more (c c' : LLMClient) (net net' : Net) (r : result string) :
  resolveAddr c net = (c', net', r) ->
  closed net' = closed net
  /\ forall addr, r = Ok addr -> grpcAddr c' = addr /\ (grpcAddr c' =? "")%string = false.
Proof.
  unfold resolveAddr, fetchConfig.
  destruct (grpcAddr c =? "")%string eqn:Haddr.
  - destruct (baseURL c =? "")%string;
      [intros H; inversion H; subst; split; [reflexivity | discriminate]|].
    destruct (http_NewRequest _);
      [intros H; inversion H; subst; split; [reflexivity | discriminate]|].
    destruct (configReply net _) as [e0|status body];
      [intros H; inversion H; subst; split; [reflexivity | discriminate]|].
    destruct (negb (status =? 200)%Z);
      [intros H; inversion H; subst; split; [reflexivity | discriminate]|].
    destruct (json_llmConfigResponse body) as [cfg|e0];
      [|intros H; inversion H; subst; split; [reflexivity | discriminate]].
    destruct (negb (Available cfg));
      [intros H; inversion H; subst; split; [reflexivity | discriminate]|].
    destruct (url_Hostname (baseURL c)) as [host|e0];
      intros H; inversion H; subst; (split; [reflexivity|]);
      [|discriminate].
    intros addr Hok; inversion Hok; subst; simpl. split; [reflexivity|].
    destruct host; reflexivity.
  - intros H; inversion H; subst. split; [reflexivity|].
    intros addr Hok; inversion Hok; subst. now split.
Qed.

(** A call of [connect] that fails had no connection to begin with, leaves
    the client without one, and has created none: the next call starts
    over. *)
Theorem connect_failure_creates_nothing (c c1 : LLMClient) (net net1 : Net)
  (e : error) :
  connect c net = (c1, net1, Some e) ->
  conn c = None
  /\ conn c1 = None
  /\ conns net1 = conns net
  /\ closed net1 = closed net.
Proof.
  unfold connect. destruct (conn c) as [h|] eqn:Hconn; [discriminate|].
  destruct (resolveAddr c net) as [[c' net'] r] eqn:Hres.
  pose proof (resolveAddr_frame _ _ _ _ _ Hres) as (H1 & _ & _ & _ & _ & H6).
  pose proof (resolveAddr_more _ _ _ _ _ Hres) as [Hclosed _].
  destruct r as [addr|e'].
  - destruct (dialReply net' _); intros H; inversion H; subst; simpl.
    repeat split; congruence.
  - intros H; inversion H; subst. repeat split; congruence.
Qed.

(** With an address set, [connect] asks the config endpoint nothing: it
    dials that address, with TLS as the base URL's scheme says, and succeeds
    exactly when the dial does. *)
Theorem connect_explicit_address (c : LLMClient) (net : Net) :
  conn c = None ->
  grpcAddr c <> "" ->
  lookups (snd (fst (connect c net))) = lookups net
  /\ dials (snd (fst (connect c net))) = dials net ++ [(grpcAddr c, useTLS c)]
  /\ grpcAddr (fst (fst (connect c net))) = grpcAddr c
  /\ snd (connect c net)
     = match dialReply net (length (dials net)) with
       | Some e =>
           Some (wrapError
                   ("failed to connect to LLM server at " ++ grpcAddr c ++ ": ") e)
       | None => None
       end.
Proof.
  intros Hconn Haddr. unfold connect, resolveAddr. rewrite Hconn.
  apply String.eqb_neq in Haddr. rewrite Haddr.
  destruct (dialReply net _); simpl; now repeat split.
Qed.

(** Discovery.  A client with no address set makes one lookup, at the base
    URL followed by [/sdk/v1/llm/config] and under its API key; when the
    service is available it dials the base URL's host at the port the lookup
    gave, and keeps that address whether or not the dial succeeds. *)
Theorem connect_discovers (c : LLMClient) (net : Net) (body host : string)
  (config : llmConfigResponse) :
  conn c = None ->
  grpcAddr c = "" ->
  baseURL c <> "" ->
  http_NewRequest (baseURL c ++ "/sdk/v1/llm/config") = None ->
  configReply net (length (lookups net)) = ConfigResponse 200 body ->
  json_llmConfigResponse body = Ok config ->
  Available config = true ->
  url_Hostname (baseURL c) = Ok host ->
  lookups (snd (fst (connect c net)))
  = lookups net ++ [((baseURL c ++ "/sdk/v1/llm/config")%string, LLMClient_apiKey c)]
  /\ dials (snd (fst (connect c net)))
     = dials net ++ [((host ++ ":" ++ fmt_d (GRPCPort config))%string, useTLS c)]
  /\ grpcAddr (fst (fst (connect c net)))
     = (host ++ ":" ++ fmt_d (GRPCPort config))%string
  /\ (snd (connect c net) = None <-> dialReply net (length (dials net)) = None).
Proof.
  intros Hconn Haddr Hbase Hreq Hreply Hbody Havail Hhost.
  unfold connect, resolveAddr, fetchConfig.
  apply String.eqb_neq in Hbase.
  rewrite Hconn, Haddr, Hbase, Hreq, Hreply.
  change (200 =? 200)%Z with true; cbn [negb].
  rewrite Hbody, Havail, Hhost; simpl.
  destruct (dialReply net _); simpl; repeat split; congruence.
Qed.

(** When the lookup says the service is not available, [connect] fails
    with that message, dials nothing and keeps no address: the next call
    looks up again. *)
Theorem connect_unavailable (c : LLMClient) (net : Net) (body : string)
  (config : llmConfigResponse) :
  conn c = None ->
  grpcAddr c = "" ->
  baseURL c <> "" ->
  http_NewRequest (baseURL c ++ "/sdk/v1/llm/config") = None ->
  configReply net (length (lookups net)) = ConfigResponse 200 body ->
  json_llmConfigResponse body = Ok config ->
  Available config = false ->
  snd (connect c net)
  = Some (errorString "LLM service is not available for this organization")
  /\ fst (fst (connect c net)) = c
  /\ dials (snd (fst (connect c net))) = dials net
  /\ length (lookups (snd (fst (connect c net)))) = S (length (lookups net)).
Proof.
  intros Hconn Haddr Hbase Hreq Hreply Hbody Havail.
  unfold connect, resolveAddr, fetchConfig.
  apply String.eqb_neq in Hbase.
  rewrite Hconn, Haddr, Hbase, Hreq, Hreply.
  change (200 =? 200)%Z with true; cbn [negb].
  rewrite Hbody, Havail; simpl.
  repeat split. rewrite length_app; simpl; lia.
Qed.

(** Closing.  [Close] after a successful [connect] releases the connection
    and keeps the address; a second [Close] does nothing; the next [connect]
    dials the kept address again, without a lookup, and, when the dial
    succeeds, holds a connection other than the one released. *)
Theorem Close_then_connect (c c1 : LLMClient) (net net1 : Net) :
  conn c = None ->
  connect c net = (c1, net1, None) ->
  dialReply net1 (length (dials net1)) = None ->
  conn c1 = Some (conns net)
  /\ conn (fst (LLMClient_Close c1 net1)) = None
  /\ closed (snd (LLMClient_Close c1 net1)) = closed net1 ++ [conns net]
  /\ LLMClient_Close (fst (LLMClient_Close c1 net1)) (snd (LLMClient_Close c1 net1))
     = LLMClient_Close c1 net1
  /\ snd (connect (fst (LLMClient_Close c1 net1)) (snd (LLMClient_Close c1 net1)))
     = None
  /\ conn (fst (fst (connect (fst (LLMClient_Close c1 net1))
                       (snd (LLMClient_Close c1 net1)))))
     = Some (S (conns net))
  /\ lookups (snd (fst (connect (fst (LLMClient_Close c1 net1))
                          (snd (LLMClient_Close c1 net1)))))
     = lookups net1
  /\ dials (snd (fst (connect (fst (LLMClient_Close c1 net1))
                        (snd (LLMClient_Close c1 net1)))))
     = dials net1 ++ [(grpcAddr c1, useTLS c1)].
Proof.
  intros Hconn Hfirst Hdial.
  assert (Hc1 : conn c1 = Some (conns net) /\ conns net1 = S (conns net)
                /\ (grpcAddr c1 =? "")%string = false).
  { unfold connect in Hfirst. rewrite Hconn in Hfirst.
    destruct (resolveAddr c net) as [[c' net'] [addr|e]] eqn:Hres;
      [|inversion Hfirst].
    pose proof (resolveAddr_more _ _ _ _ _ Hres) as [_ Haddr].
    destruct (Haddr addr eq_refl) as [_ Hne].
    apply resolveAddr_frame in Hres as (H1 & _).
    destruct (dialReply net' _); inversion Hfirst; subst; simpl.
    now rewrite H1. }
  destruct Hc1 as (Hc1 & Hconns & Haddr).
  destruct (LLMClient_Close c1 net1) as [c2 net2] eqn:Hclose.
  unfold LLMClient_Close in Hclose. rewrite Hc1 in Hclose.
  inversion Hclose; subst c2 net2; clear Hclose. cbn [fst snd].
  match goal with
  | |- context [connect ?c2 ?net2] =>
      destruct (connect c2 net2) as [[c3 net3] err] eqn:Hagain
  end.
  unfold connect, resolveAddr in Hagain.
  cbn [conn grpcAddr] in Hagain. rewrite Haddr in Hagain.
  cbn [dials dialReply] in Hagain. rewrite Hdial in Hagain.
  inversion Hagain; subst c3 net3 err; clear Hagain.
  unfold LLMClient_Close; simpl. rewrite Hconns.
  repeat split; trivial.
Qed.

End ConnectorMore.

(** ** The relay: what the handlers keep and what they write *)

Lemma wellFormed_sendError (s : wsSession) (code message : string) (r : bool) :
  wellFormed s -> wellFormed (sendError s code message r).
Proof. intros H. exact H. Qed.

Lemma wellFormed_withBackend (s : wsSession) (st : ChatClient) :
  wellFormed s -> wellFormed (withBackend s st).
Proof.
  intros [_ Hr]. split; [|exact Hr]. intros _. now exists st.
Qed.

Lemma answered_refl (s : wsSession) : answered s s.
Proof. now left. Qed.

Lemma answered_sendError (s0 s : wsSession) (code message : string) (r : bool) :
  ws_conn s = ws_conn s0 -> answered s0 (sendError s code message r).
Proof.
  intros H. right. exists code, message, r. rewrite sendError_writes; simpl.
  now rewrite H.
Qed.

Section RelayMore.
Context {lib : GoLib}.

Lemma wellFormed_forward (s : wsSession) (st : ChatClient) (m : llmpb.ChatRequest) :
  wellFormed s -> wellFormed (forward s st m).
Proof.
  intros H. unfold forward. destruct (stream_Send st m) as [st' [e|]].
  - apply wellFormed_sendError. now apply wellFormed_withBackend.
  - now apply wellFormed_withBackend.
Qed.

Lemma answered_forward (s : wsSession) (st : ChatClient) (m : llmpb.ChatRequest) :
  answered s (forward s st m).
Proof.
  unfold forward. destruct (stream_Send st m) as [st' [e|]].
  - now apply answered_sendError.
  - now left.
Qed.

Lemma handleStart_keeps (s : wsSession) (net : Net) (data : RawMessage) :
  (wellFormed s -> wellFormed (fst (handleStart s net data)))
  /\ answered s (fst (handleStart s net data)).
Proof.
  unfold handleStart. destruct (started s) eqn:Hstarted.
  { split; [intros H; exact H | now apply answered_sendError]. }
  destruct (json_WSStartRequest data) as [req|e].
  2:{ split; [intros H; exact H | now apply answered_sendError]. }
  destruct (connect (llm s) net) as [[c net1] [e|]].
  { split; [|now apply answered_sendError].
    intros [_ Hr]. split; simpl; [congruence | now rewrite Hstarted in *]. }
  destruct (client_Chat net1) as [net2 [st|e]].
  2:{ split; [|now apply answered_sendError].
      intros [_ Hr]. split; simpl; [congruence | now rewrite Hstarted in *]. }
  simpl. destruct (stream_Send st _) as [st' [e|]]; simpl.
  - split; [|now apply answered_sendError].
    intros [_ Hr]. split; simpl; [congruence | now rewrite Hstarted in *].
  - split; [|now left].
    intros [_ Hr]. split; simpl; [now exists st' | now rewrite Hr, Hstarted].
Qed.

Lemma handleMessage_keeps (s : wsSession) (data : RawMessage) :
  (wellFormed s -> wellFormed (handleMessage s data))
  /\ answered s (handleMessage s data).
Proof.
  unfold handleMessage. destruct (notStarted s).
  { split; [intros H; exact H | now apply answered_sendError]. }
  destruct (ws_stream s) as [st|]; [|split; [trivial | now left]].
  destruct (json_WSUserMessage data) as [msg|e].
  - split; [apply wellFormed_forward | apply answered_forward].
  - split; [intros H; exact H | now apply answered_sendError].
Qed.

Lemma handleToolResult_keeps (s : wsSession) (data : RawMessage) :
  (wellFormed s -> wellFormed (handleToolResult s data))
  /\ answered s (handleToolResult s data).
Proof.
  unfold handleToolResult. destruct (notStarted s).
  { split; [intros H; exact H | now apply answered_sendError]. }
  destruct (ws_stream s) as [st|]; [|split; [trivial | now left]].
  destruct (json_WSToolResult data) as [msg|e].
  - split; [apply wellFormed_forward | apply answered_forward].
  - split; [intros H; exact H | now apply answered_sendError].
Qed.

Lemma handleAbort_keeps (s : wsSession) (data : RawMessage) :
  (wellFormed s -> wellFormed (handleAbort s data))
  /\ ws_conn (handleAbort s data) = ws_conn s.
Proof.
  unfold handleAbort. destruct (notStarted s); [now split|].
  destruct (ws_stream s) as [st|]; [|now split].
  split; [apply wellFormed_withBackend | reflexivity].
Qed.

Lemma dispatch_keeps (s : wsSession) (net : Net) (message : string) :
  (wellFormed s -> wellFormed (fst (dispatch s net message)))
  /\ answered s (fst (dispatch s net message)).
Proof.
  unfold dispatch. destruct (json_WSMessage message) as [msg|e].
  2:{ split; [intros H; exact H | now apply answered_sendError]. }
  destruct (WSMessage_Type msg =? WSMsgTypeStart)%string; [apply handleStart_keeps|].
  destruct (WSMessage_Type msg =? WSMsgTypeMessage)%string;
    [apply handleMessage_keeps|].
  destruct (WSMessage_Type msg =? WSMsgTypeAbort)%string.
  { destruct (handleAbort_keeps s (WSMessage_Data msg)) as [Hw Hc].
    split; [exact Hw | now left]. }
  destruct (WSMessage_Type msg =? WSMsgTypeToolResult)%string;
    [apply handleToolResult_keeps|].
  split; [intros H; exact H | now apply answered_sendError].
Qed.

(** Whatever frames arrive, in whatever order, the relay keeps its
    bookkeeping sound: a session marked started has a backend stream, and
    the forwarding goroutine was started once for it, and never for a session
    not started.  So no socket gets two readers on its backend stream. *)
Theorem run_keeps_wellFormed (frames : list string) :
  forall (s : wsSession) (net : Net),
    wellFormed s -> wellFormed (fst (run s net frames)).
Proof.
  induction frames as [|message frames IH]; intros s net Hw; [exact Hw|].
  simpl. destruct (dispatch_keeps s net message) as [Hkeep _].
  destruct (dispatch s net message) as [s1 net1]. apply IH. now apply Hkeep.
Qed.

(** The socket-reading side of the relay writes error frames only, and at
    most one for each frame it reads. *)
Theorem run_answers_with_errors (frames : list string) :
  forall (s : wsSession) (net : Net),
  exists written,
    ws_conn (fst (run s net frames)) = ws_conn s ++ written
    /\ length written <= length frames
    /\ Forall (fun f => frame_Type f = "error") written.
Proof.
  induction frames as [|message frames IH]; intros s net.
  - exists []. simpl. rewrite app_nil_r. repeat split; [lia | constructor].
  - simpl. destruct (dispatch_keeps s net message) as [_ Hans].
    destruct (dispatch s net message) as [s1 net1]. simpl in Hans.
    destruct (IH s1 net1) as (written & Hw & Hlen & Hall).
    destruct Hans as [Hsame | (code & msg & r & Hone)].
    + exists written. rewrite Hw, Hsame. repeat split; [lia | exact Hall].
    + exists (errorFrame code msg r :: written).
      rewrite Hw, Hone, <- app_assoc. repeat split; [simpl; lia|].
      constructor; [reflexivity | exact Hall].
Qed.

(** [handleAbort] never writes to the socket.  Before a start it does
    nothing at all; after it, the abort message with the decoded reason goes
    out on the backend stream, and a failure to send it is dropped. *)
Theorem handleAbort_silent (s : wsSession) (data : RawMessage) :
  ws_conn (handleAbort s data) = ws_conn s
  /\ (started s = false -> handleAbort s data = s)
  /\ (forall st, started s = true -> ws_stream s = Some st ->
      exists st',
        ws_stream (handleAbort s data) = Some st'
        /\ transmitted st'
           = transmitted st
             ++ [llmpb.ChatRequest_Abort
                   {| llmpb.abort_Reason := WSAbort_Reason (json_WSAbortRequest data) |}]).
Proof.
  split; [apply handleAbort_keeps|]. split.
  - intros H. unfold handleAbort, notStarted. now rewrite H.
  - intros st Hstarted Hst. unfold handleAbort, notStarted.
    rewrite Hstarted, Hst; simpl.
    eexists. split; [reflexivity|]. apply transmitted_Send.
Qed.

(** A start on a session not yet started goes one of two ways.  Either
    it goes through: the session is started, one forwarding goroutine is
    spawned and nothing is written to the socket.  Or it fails: the session
    is left not started and no goroutine is spawned, so that a later start is
    tried afresh, and the answer is one error frame, which is marked
    retryable unless the payload itself was bad.  So a start that was
    answered with an error never leaves the session started. *)
Theorem handleStart_failure (s : wsSession) (net : Net) (data : RawMessage) :
  started s = false ->
  (started (fst (handleStart s net data)) = true
   /\ readers (fst (handleStart s net data)) = S (readers s)
   /\ ws_conn (fst (handleStart s net data)) = ws_conn s)
  \/ (started (fst (handleStart s net data)) = false
      /\ readers (fst (handleStart s net data)) = readers s
      /\ exists code message,
           ws_conn (fst (handleStart s net data))
           = ws_conn s
             ++ [errorFrame code message (negb (code =? "invalid_data")%string)]
           /\ In code ["invalid_data"; "connection_failed"; "stream_failed";
                       "start_failed"]).
Proof.
  intros Hs. unfold handleStart. rewrite Hs.
  destruct (json_WSStartRequest data) as [req|e].
  2:{ right. simpl. rewrite ?Hs. split; [reflexivity|]. split; [reflexivity|].
      exists "invalid_data", "Invalid start request". simpl. auto. }
  destruct (connect (llm s) net) as [[c net1] [e|]].
  { right. simpl. rewrite ?Hs. split; [reflexivity|]. split; [reflexivity|].
    exists "connection_failed", (Error e). simpl. auto. }
  destruct (client_Chat net1) as [net2 [st|e]].
  2:{ right. simpl. rewrite ?Hs. split; [reflexivity|]. split; [reflexivity|].
      exists "stream_failed", (Error e). simpl. auto. }
  simpl. destruct (stream_Send st _) as [st' [e|]]; simpl.
  - right. rewrite ?Hs. split; [reflexivity|]. split; [reflexivity|].
    exists "start_failed", (Error e). simpl. auto 6.
  - left. repeat split.
Qed.

(** [handleToolResult]: before a start, one [not_started] error and nothing
    on the backend; after it, for a payload that decodes, the tool result
    goes out on the backend stream with its call id, result and error flag. *)
Theorem handleToolResult_forwards (s : wsSession) (data : RawMessage) :
  (started s = false ->
   handleToolResult s data = sendError s "not_started" "Session not started" false)
  /\ (forall st result,
        started s = true ->
        ws_stream s = Some st ->
        json_WSToolResult data = Ok result ->
        exists st',
          ws_stream (handleToolResult s data) = Some st'
          /\ transmitted st'
             = transmitted st
               ++ [llmpb.ChatRequest_ToolResult
                     {| llmpb.result_ToolCallId := WSResult_ToolCallID result;
                        llmpb.result_Result := WSResult_Result result;
                        llmpb.result_IsError := WSResult_IsError result |}]).
Proof.
  split.
  - intros H. unfold handleToolResult, notStarted. now rewrite H.
  - intros st result Hstarted Hst Hdec.
    unfold handleToolResult, notStarted, forward. rewrite Hstarted, Hst, Hdec; simpl.
    match goal with
    | |- context [stream_Send st ?m] =>
        pose proof (transmitted_Send st m) as Ht;
        destruct (stream_Send st m) as [st' [e|]]
    end; simpl in *; exists st'; now split.
Qed.

End RelayMore.

(** ** The relay's forwarding loop *)

(** Forwarding an event touches the socket only. *)
Lemma relayResponse_frame (s : wsSession) (ev : llmpb.ChatResponse) :
  llm (relayResponse s ev) = llm s
  /\ ws_stream (relayResponse s ev) = ws_stream s
  /\ started (relayResponse s ev) = started s
  /\ readers (relayResponse s ev) = readers s
  /\ length (ws_conn (relayResponse s ev))
     = length (ws_conn s) + (if forwardable ev then 1 else 0).
Proof.
  destruct ev as [r|r|r|r|r|r|]; unfold relayResponse, send; simpl;
    try (rewrite length_app; simpl; now repeat split);
    [|repeat split; lia].
  destruct (is_finite (llmpb.CostUsd r)); simpl;
    [rewrite length_app; simpl; now repeat split | repeat split; lia].
Qed.

Lemma relayResponse_withBackend (s : wsSession) (st : ChatClient)
  (ev : llmpb.ChatResponse) :
  relayResponse (withBackend s st) ev = withBackend (relayResponse s ev) st.
Proof.
  destruct ev as [r|r|r|r|r|r|]; unfold relayResponse, send, withBackend; simpl;
    try reflexivity.
  now destruct (is_finite (llmpb.CostUsd r)).
Qed.

Lemma relayed_withBackend (evs : list llmpb.ChatResponse) :
  forall (s : wsSession) (st : ChatClient),
    fold_left relayResponse evs (withBackend s st)
    = withBackend (fold_left relayResponse evs s) st.
Proof.
  induction evs as [|ev evs IH]; intros s st; [reflexivity|].
  simpl. now rewrite relayResponse_withBackend, IH.
Qed.

Lemma relayed_frame (evs : list llmpb.ChatResponse) : forall s : wsSession,
  ws_stream (fold_left relayResponse evs s) = ws_stream s
  /\ started (fold_left relayResponse evs s) = started s
  /\ length (ws_conn (fold_left relayResponse evs s))
     = length (ws_conn s) + length (filter forwardable evs).
Proof.
  induction evs as [|ev evs IH]; intros s; simpl; [repeat split; lia|].
  destruct (IH (relayResponse s ev)) as (H1 & H2 & H3).
  destruct (relayResponse_frame s ev) as (_ & H4 & H5 & _ & H6).
  rewrite H1, H2, H3, H4, H5, H6.
  destruct (forwardable ev); simpl; repeat split; lia.
Qed.

(** The loop takes the deliveries one by one, handing each to
    [relayResponse], whatever the event. *)
Lemma readGRPCResponses_steps (evs : list llmpb.ChatResponse) :
  forall (rest : list Delivery) (fuel : nat) (s : wsSession) (st : ChatClient),
    ws_stream s = Some st ->
    inbox st = map Deliver evs ++ rest ->
    readGRPCResponses (length evs + fuel) s
    = readGRPCResponses fuel
        (withBackend (fold_left relayResponse evs s) (received st (length evs) rest)).
Proof.
  induction evs as [|ev evs IH]; intros rest fuel s st Hst Hin.
  - simpl in *. f_equal.
    destruct s as [cn l ws stt rd]; destruct st as [cl ib se ce]; simpl in *; subst.
    unfold withBackend, received; simpl. now rewrite app_nil_r.
  - change (length (ev :: evs) + fuel) with (S (length evs + fuel)).
    cbn [readGRPCResponses]. rewrite Hst.
    destruct st as [cl ib se ce]; simpl in Hin; subst ib.
    unfold stream_Recv; simpl.
    rewrite relayResponse_withBackend.
    erewrite IH; [|reflexivity|reflexivity].
    f_equal. simpl. rewrite relayed_withBackend.
    unfold withBackend, received; simpl. now rewrite <- app_assoc.
Qed.

(** Up to end of stream the loop forwards every event, in order, also
    those that come after a completion or an error event: the socket holds
    what [relayResponse] writes for each in turn, one frame for every event
    that marshals, and the stream is left empty. *)
Theorem readGRPCResponses_forwards_all (s : wsSession) (st : ChatClient)
  (evs : list llmpb.ChatResponse) :
  ws_stream s = Some st ->
  inbox st = map Deliver evs ->
  exists s',
    readGRPCResponses (S (length evs)) s = Some s'
    /\ ws_conn s' = ws_conn (fold_left relayResponse evs s)
    /\ length (ws_conn s') = length (ws_conn s) + length (filter forwardable evs)
    /\ ws_stream s' = Some (received st (S (length evs)) [])
    /\ started s' = started s.
Proof.
  intros Hst Hin. rewrite <- (app_nil_r (map Deliver evs)) in Hin.
  replace (S (length evs)) with (length evs + 1) by lia.
  rewrite (readGRPCResponses_steps evs [] 1 s st Hst Hin).
  destruct (relayed_frame evs s) as (_ & Hstarted & Hlen).
  simpl. unfold stream_Recv; simpl.
  eexists. split; [reflexivity|]. simpl.
  repeat split; trivial.
  unfold received, logCall; simpl.
  now rewrite repeat_app, app_assoc.
Qed.

(** A transport error ends the loop: the events before it are forwarded,
    one [stream_error] frame with the transport's text follows, not
    retryable, and what the stream still holds is never received. *)
Theorem readGRPCResponses_stream_error (s : wsSession) (st : ChatClient)
  (evs : list llmpb.ChatResponse) (e : error) (rest : list Delivery) (fuel : nat) :
  ws_stream s = Some st ->
  inbox st = map Deliver evs ++ TransportError e :: rest ->
  length evs < fuel ->
  exists s',
    readGRPCResponses fuel s = Some s'
    /\ ws_conn s'
       = ws_conn (fold_left relayResponse evs s)
         ++ [errorFrame "stream_error" (Error e) false]
    /\ exists st', ws_stream s' = Some st' /\ inbox st' = rest.
Proof.
  intros Hst Hin Hfuel.
  replace fuel with (length evs + S (fuel - S (length evs))) by lia.
  rewrite (readGRPCResponses_steps evs _ _ s st Hst Hin).
  simpl. unfold stream_Recv; simpl.
  eexists. split; [reflexivity|]. simpl.
  split; [reflexivity|]. eexists. split; reflexivity.
Qed.

(** ** Byte strings *)

Lemma strlen_app (a b : string) :
  String.length (a ++ b) = String.length a + String.length b.
Proof. induction a as [|x a IH]; simpl; [reflexivity | now rewrite IH]. Qed.

Lemma take_app (a b : string) : take (String.length a) (a ++ b) = a.
Proof. induction a as [|x a IH]; simpl; [now destruct b | now rewrite IH]. Qed.

Lemma drop_app (a b : string) : drop (String.length a) (a ++ b) = b.
Proof. induction a as [|x a IH]; simpl; [reflexivity | exact IH]. Qed.

Lemma take_drop (n : nat) : forall s : string, (take n s ++ drop n s)%string = s.
Proof.
  induction n as [|n IH]; intros s; [reflexivity|].
  destruct s as [|a s]; simpl; [reflexivity | now rewrite IH].
Qed.

Lemma hasByte_app (c : ascii) (a b : string) :
  hasByte c (a ++ b) = hasByte c a || hasByte c b.
Proof.
  induction a as [|x a IH]; simpl; [reflexivity|].
  now rewrite IH, orb_assoc.
Qed.

Lemma HasSuffix_app (b suffix : string) : HasSuffix (b ++ suffix) suffix = true.
Proof.
  unfold HasSuffix. rewrite strlen_app.
  replace (String.length b + String.length suffix - String.length suffix)
    with (String.length b) by lia.
  rewrite drop_app, String.eqb_refl, andb_true_r.
  apply Nat.leb_le. lia.
Qed.

Lemma HasSuffix_split (s suffix : string) :
  HasSuffix s suffix = true ->
  s = (take (String.length s - String.length suffix) s ++ suffix)%string.
Proof.
  unfold HasSuffix. intros H. apply andb_prop in H as [_ H].
  apply String.eqb_eq in H.
  set (n := String.length s - String.length suffix) in *.
  transitivity (take n s ++ drop n s)%string;
    [symmetry; apply take_drop | now rewrite H].
Qed.

Lemma TrimSuffix_app (b suffix : string) : TrimSuffix (b ++ suffix) suffix = b.
Proof.
  unfold TrimSuffix. rewrite HasSuffix_app, strlen_app.
  replace (String.length b + String.length suffix - String.length suffix)
    with (String.length b) by lia.
  apply take_app.
Qed.

Lemma HasSuffix_byte (c : ascii) (s : string) :
  hasByte c s = false -> HasSuffix s (String c "") = false.
Proof.
  intros Hno. destruct (HasSuffix s (String c "")) eqn:H; [|reflexivity].
  apply HasSuffix_split in H. rewrite H, hasByte_app in Hno. simpl in Hno.
  rewrite Ascii.eqb_refl in Hno. simpl in Hno.
  now rewrite orb_true_r in Hno.
Qed.

Lemma prefix_app (p v : string) : String.prefix p (p ++ v) = true.
Proof.
  induction p as [|a p IH]; simpl; [now destruct v|].
  destruct (ascii_dec a a); [exact IH | congruence].
Qed.

Lemma prefix_split (p : string) : forall s : string,
  String.prefix p s = true -> exists v, s = (p ++ v)%string.
Proof.
  induction p as [|a p IH]; intros s H; [now exists s|].
  destruct s as [|b s]; simpl in H; [discriminate|].
  destruct (ascii_dec a b); [|discriminate]. subst b.
  destruct (IH s H) as [v Hv]. exists v. simpl. now rewrite Hv.
Qed.

(** [LastIndex] finds an instance, when it finds anything. *)
Lemma LastIndex_found (substr : string) : forall s : string,
  LastIndex s substr <> (-1)%Z ->
  (0 <= LastIndex s substr)%Z
  /\ exists u v, s = (u ++ substr ++ v)%string.
Proof.
  induction s as [|a s IH]; cbn [LastIndex]; intros H.
  - destruct (substr =? "")%string eqn:He; [|exfalso; now apply H].
    apply String.eqb_eq in He. subst. split; [lia|]. now exists "", "".
  - destruct (LastIndex s substr =? -1)%Z eqn:Hi.
    + destruct (String.prefix substr (String a s)) eqn:Hp; [|exfalso; now apply H].
      split; [lia|]. apply prefix_split in Hp as [v Hv]. exists "", v. exact Hv.
    + apply Z.eqb_neq in Hi. destruct (IH Hi) as [Hpos (u & v & Huv)].
      split; [lia|]. exists (String a u), v. simpl. now rewrite Huv.
Qed.

(** A byte that sits at or past the end of [q] in [q ++ tail] is a byte of
    [tail]. *)
Lemma byte_in_tail (c : ascii) (tail : string) : forall (q x v : string),
  (x ++ String c v)%string = (q ++ tail)%string ->
  String.length q <= String.length x ->
  hasByte c tail = true.
Proof.
  induction q as [|b q IH]; intros x v Heq Hlen; simpl in *.
  - rewrite <- Heq, hasByte_app. simpl. rewrite Ascii.eqb_refl. simpl.
    apply orb_true_r.
  - destruct x as [|a x]; simpl in *; [lia|].
    inversion Heq; subst. apply (IH x v); [assumption | lia].
Qed.

(** ** [handlers.go] *)

(** The index [extractToken] computes for a path made of a mount point,
    a prefix ending in a slash, and a token with no slash in it. *)
Lemma LastIndex_token (p token : string) : forall mount : string,
  hasByte "/"%char token = false ->
  LastIndex (mount ++ (p ++ "/") ++ token) (p ++ "/")
  = Z.of_nat (String.length mount).
Proof.
  intros mount Hno. induction mount as [|a mount IH].
  - cbn [append String.length Z.of_nat].
    assert (Hshape : exists a q, (p ++ "/")%string = String a q
                                 /\ String.length q = String.length p).
    { destruct p as [|b p]; simpl;
        [exists "/"%char, "" | exists b, (p ++ "/")%string];
        (split; [reflexivity|]); [reflexivity|].
      rewrite strlen_app. simpl. lia. }
    destruct Hshape as (a & q & Hpre & Hq).
    assert (Hnone : LastIndex (q ++ token) (p ++ "/") = (-1)%Z).
    { destruct (Z.eq_dec (LastIndex (q ++ token) (p ++ "/")) (-1)) as [|Hne];
        [assumption|].
      apply LastIndex_found in Hne as [_ (u & v & Huv)].
      rewrite string_app_assoc in Huv. simpl in Huv.
      rewrite <- string_app_assoc in Huv.
      symmetry in Huv. apply byte_in_tail in Huv; [congruence|].
      rewrite strlen_app. lia. }
    pose proof (prefix_app (p ++ "/") token) as Hpfx.
    remember (p ++ "/")%string as pre eqn:Epre.
    assert (Hs : (pre ++ token)%string = String a (q ++ token))
      by (rewrite Hpre; reflexivity).
    rewrite Hs in Hpfx |- *. cbn [LastIndex]. rewrite Hnone, Hpfx. reflexivity.
  - change ((String a mount ++ (p ++ "/") ++ token)%string)
      with (String a (mount ++ (p ++ "/") ++ token)).
    cbn [LastIndex]. rewrite IH.
    destruct (Z.of_nat (String.length mount) =? -1)%Z eqn:Hi;
      [apply Z.eqb_eq in Hi; lia|].
    cbn [String.length]. lia.
Qed.

(** [extractToken] on a path made of a mount point, a prefix ending in a
    slash and a slash-free token. *)
Lemma extractToken_path (mount p token : string) :
  hasByte "/"%char token = false ->
  extractToken (mount ++ (p ++ "/") ++ token) (p ++ "/") = token.
Proof.
  intros Hno. unfold extractToken. rewrite (LastIndex_token p token mount Hno).
  destruct (Z.of_nat (String.length mount) =? -1)%Z eqn:Hi;
    [apply Z.eqb_eq in Hi; lia|].
  rewrite Nat2Z.id, <- strlen_app, <- (string_app_assoc mount (p ++ "/") token).
  rewrite drop_app.
  unfold TrimSuffix. now rewrite (HasSuffix_byte "/"%char token Hno).
Qed.

(** A tracking path round-trips.  For a handler prefix that ends in a
    slash and a token with no slash in it, [extractToken] gets the token back
    out of the path made of any mount point, the prefix and the token. *)
Theorem extractToken_roundtrip (mount p token : string) :
  hasByte "/"%char token = false ->
  extractToken (mount ++ (p ++ "/") ++ token) (p ++ "/") = token.
Proof. exact (extractToken_path mount p token). Qed.

(** The constant 7 in [webhookBaseURL] is the length of [/sdk/v1]. *)
Lemma webhookBaseURL_suffix (key b : string) :
  webhookBaseURL {| Client_apiKey := key; Client_baseURL := b ++ "/sdk/v1" |} = b.
Proof.
  unfold webhookBaseURL; simpl Client_baseURL.
  rewrite HasSuffix_app, strlen_app.
  replace (String.length b + String.length "/sdk/v1" - 7) with (String.length b)
    by (simpl; lia).
  apply take_app.
Qed.

(** [webhookBaseURL] takes [/sdk/v1] off the end of the base URL, once,
    and nothing else: the base URL is the result, or the result followed by
    [/sdk/v1]. *)
Theorem webhookBaseURL_strips (key b : string) :
  webhookBaseURL {| Client_apiKey := key; Client_baseURL := b ++ "/sdk/v1" |} = b
  /\ (HasSuffix b "/sdk/v1" = false ->
      webhookBaseURL {| Client_apiKey := key; Client_baseURL := b |} = b)
  /\ (b = webhookBaseURL {| Client_apiKey := key; Client_baseURL := b |}
      \/ b = (webhookBaseURL {| Client_apiKey := key; Client_baseURL := b |}
              ++ "/sdk/v1")%string).
Proof.
  split; [apply webhookBaseURL_suffix|].
  unfold webhookBaseURL; simpl Client_baseURL. split.
  - intros H. now rewrite H.
  - destruct (HasSuffix b "/sdk/v1") eqn:H; [right | now left].
    now apply HasSuffix_split in H.
Qed.

(** ** Stripe signatures *)

Lemma Split_nosep (sep : ascii) : forall s : string,
  hasByte sep s = false -> Split s sep = [s].
Proof.
  induction s as [|a s IH]; simpl; intros H; [reflexivity|].
  apply orb_false_elim in H as [Ha Hs]. rewrite Ha, (IH Hs). reflexivity.
Qed.

Lemma Split_app (sep : ascii) (b : string) : forall a : string,
  hasByte sep a = false ->
  Split (a ++ String sep b) sep = a :: Split b sep.
Proof.
  induction a as [|x a IH]; simpl; intros H.
  - now rewrite Ascii.eqb_refl.
  - apply orb_false_elim in H as [Hx Ha]. rewrite Hx, (IH Ha). reflexivity.
Qed.

Section Stripe.
Context {crypto : GoCrypto}.

(** A header [t=T,v1=S] verifies exactly when [S] is the HMAC, under the
    secret, of [T], a dot and the payload; the timestamp is checked against
    nothing else.  With two [v1] values the last one is the one compared. *)
Theorem verifyStripeSignature_exact (payload secret T S S0 : string) :
  T <> "" -> S <> "" ->
  hasByte ","%char T = false ->
  hasByte ","%char S = false ->
  hasByte ","%char S0 = false ->
  verifyStripeSignature payload ("t=" ++ T ++ ",v1=" ++ S) secret
  = (hmac_sha256_hex secret (T ++ "." ++ payload) =? S)%string
  /\ verifyStripeSignature payload ("t=" ++ T ++ ",v1=" ++ S0 ++ ",v1=" ++ S) secret
     = (hmac_sha256_hex secret (T ++ "." ++ payload) =? S)%string.
Proof.
  intros HT HS HcT HcS HcS0.
  apply String.eqb_neq in HT. apply String.eqb_neq in HS.
  assert (HtT : hasByte ","%char ("t=" ++ T) = false) by (simpl; exact HcT).
  assert (HvS0 : hasByte ","%char ("v1=" ++ S0) = false) by (simpl; exact HcS0).
  assert (HvS : hasByte ","%char ("v1=" ++ S) = false) by (simpl; exact HcS).
  split; unfold verifyStripeSignature, parseSignature.
  - change ("t=" ++ T ++ ",v1=" ++ S)%string
      with (("t=" ++ T) ++ String "," ("v1=" ++ S))%string.
    rewrite (Split_app _ _ _ HtT), (Split_nosep _ _ HvS).
    cbn. now rewrite HT, HS.
  - change ("t=" ++ T ++ ",v1=" ++ S0 ++ ",v1=" ++ S)%string
      with (("t=" ++ T) ++ String "," ("v1=" ++ S0 ++ ",v1=" ++ S))%string.
    rewrite (Split_app _ _ _ HtT).
    change ("v1=" ++ S0 ++ ",v1=" ++ S)%string
      with (("v1=" ++ S0) ++ String "," ("v1=" ++ S))%string.
    rewrite (Split_app _ _ _ HvS0), (Split_nosep _ _ HvS).
    cbn. now rewrite HT, HS.
Qed.

End Stripe.

(** ** Making a client, opening a session *)

Section Making.
Context {lib : GoLib}.

(** A client made with [WithGRPCAddress] never asks the config endpoint:
    its first [connect] dials the address given, with TLS exactly when the
    URL it was made with starts with [https://]. *)
Theorem NewLLMClient_addressed (key url addr : string) (net : Net) :
  addr <> "" ->
  conn (NewLLMClient key url [WithGRPCAddress addr]) = None
  /\ lookups (snd (fst (connect (NewLLMClient key url [WithGRPCAddress addr]) net)))
     = lookups net
  /\ dials (snd (fst (connect (NewLLMClient key url [WithGRPCAddress addr]) net)))
     = dials net ++ [(addr, String.prefix "https://" url)].
Proof.
  intros Haddr. apply String.eqb_neq in Haddr.
  unfold NewLLMClient, WithGRPCAddress, connect, resolveAddr; simpl fold_left.
  cbn [conn grpcAddr useTLS]. rewrite Haddr.
  destruct (dialReply net _); simpl; now repeat split.
Qed.

(** A base URL given with a slash at its end loses it: the config lookup
    goes to the URL without the slash followed by [/sdk/v1/llm/config]. *)
Theorem NewLLMClient_trailing_slash (key b : string) (net : Net) :
  b <> "" ->
  http_NewRequest (b ++ "/sdk/v1/llm/config") = None ->
  baseURL (NewLLMClient key (b ++ "/") []) = b
  /\ lookups (fst (fetchConfig (NewLLMClient key (b ++ "/") []) net))
     = lookups net ++ [((b ++ "/sdk/v1/llm/config")%string, key)].
Proof.
  intros Hb Hreq. apply String.eqb_neq in Hb.
  unfold NewLLMClient, fetchConfig; simpl fold_left. cbn [baseURL LLMClient_apiKey].
  rewrite TrimSuffix_app, Hb, Hreq. split; [reflexivity|].
  destruct (configReply net _) as [e|status body]; [reflexivity|].
  destruct (negb (status =? 200)%Z); [reflexivity|].
  now destruct (json_llmConfigResponse body).
Qed.

Lemma connect_opened (c : LLMClient) (net : Net) :
  opened (snd (fst (connect c net))) = opened net.
Proof.
  unfold connect, resolveAddr, fetchConfig.
  destruct (conn c); [reflexivity|].
  destruct (grpcAddr c =? "")%string.
  - destruct (baseURL c =? "")%string; [reflexivity|].
    destruct (http_NewRequest _); [reflexivity|].
    destruct (configReply net _) as [e|status body]; [reflexivity|].
    destruct (negb (status =? 200)%Z); [reflexivity|].
    destruct (json_llmConfigResponse body) as [cfg|e]; [|reflexivity].
    destruct (negb (Available cfg)); [reflexivity|].
    destruct (url_Hostname (baseURL c)); [|reflexivity].
    simpl. now destruct (dialReply net _).
  - simpl. now destruct (dialReply net _).
Qed.

(** Opening a session.  A session [NewChatSession] returns sits on the
    stream the backend handed out for this call; one start envelope has been
    transmitted on it, with the client's API key, the request's parameters
    and every message of the request in order, and nothing has been received
    yet.  The session is open. *)
Theorem NewChatSession_start (c c1 : LLMClient) (net net1 : Net)
  (req : ChatRequest) (s : ChatSession) :
  NewChatSession c net req = (c1, net1, Ok s) ->
  done s = false
  /\ apiKey s = LLMClient_apiKey c
  /\ opened net1 = S (opened net)
  /\ exists st0,
       chatReply net (opened net) = Ok st0
       /\ inbox (stream s) = inbox st0
       /\ calls (stream s)
          = calls st0
            ++ [CallSend
                  (llmpb.ChatRequest_Start
                     {| llmpb.start_ApiKey := LLMClient_apiKey c;
                        llmpb.start_SystemPrompt := SystemPrompt req;
                        llmpb.start_Model := Model req;
                        llmpb.start_MaxTokens := MaxTokens req;
                        llmpb.start_Temperature := Temperature req;
                        llmpb.start_Messages :=
                          map (fun m => {| llmpb.msg_Role := ChatMessage_Role m;
                                           llmpb.msg_Content := ChatMessage_Content m |})
                            (Messages req) |})].
Proof.
  unfold NewChatSession.
  pose proof (connect_opened c net) as Hopened.
  destruct (connect c net) as [[c' net'] [e|]] eqn:Hconn;
    [intros H; inversion H|].
  apply connect_nil in Hconn as (_ & _ & Hchat & Hkey).
  simpl in Hopened. unfold client_Chat.
  destruct (chatReply net' (opened net')) as [st0|e] eqn:Hst0;
    [|intros H; inversion H].
  rewrite Hchat, Hopened in Hst0.
  unfold stream_Send, logCall, startEnvelope, convertMessages.
  destruct (sendErrs st0) as [|[e|] rest]; intros H; inversion H; subst; simpl;
    rewrite Hkey, Hopened; (repeat split); exists st0; now repeat split.
Qed.

End Making.

(** ** The further facts on concrete inputs *)

(** [Send_aborted_event] on a chunk followed by an abort. *)
Lemma Send_aborted_event_witness :
  done (openSession
          [chunk "He" 0;
           llmpb.ChatResponse_Aborted {| llmpb.aborted_Reason := "user cancelled" |}])
  = false
  /\ returned
       (Send (openSession
                [chunk "He" 0;
                 llmpb.ChatResponse_Aborted
                   {| llmpb.aborted_Reason := "user cancelled" |}])
          "hi" recorder [])
     = Some (Err (errorString "generation aborted: user cancelled")).
Proof.
  split; [reflexivity|].
  destruct (Send_aborted_event recorder
              (openSession
                 [chunk "He" 0;
                  llmpb.ChatResponse_Aborted
                    {| llmpb.aborted_Reason := "user cancelled" |}])
              "hi" [] [chunkOf (chunkResponse "He" 0)] [chunk "He" 0]
              {| llmpb.aborted_Reason := "user cancelled" |} []
              [chunkOf (chunkResponse "He" 0)]
              eq_refl eq_refl eq_refl eq_refl eq_refl) as (Hret & _).
  exact Hret.
Defined.

(** [Send_receive_error] on a chunk followed by a broken connection. *)
Lemma Send_receive_error_witness :
  inbox (failingStream [chunk "He" 0] (errorString "connection reset"))
  = map Deliver [chunk "He" 0] ++ [TransportError (errorString "connection reset")]
  /\ returned
       (Send {| stream := failingStream [chunk "He" 0] (errorString "connection reset");
                apiKey := "lv_key"; done := false |} "hi" recorder [])
     = Some (Err (wrapError "stream receive error: " (errorString "connection reset"))).
Proof.
  split; [reflexivity|].
  destruct (Send_receive_error recorder
              {| stream := failingStream [chunk "He" 0] (errorString "connection reset");
                 apiKey := "lv_key"; done := false |}
              "hi" [] [chunkOf (chunkResponse "He" 0)] [chunk "He" 0]
              (errorString "connection reset") []
              [chunkOf (chunkResponse "He" 0)]
              eq_refl eq_refl eq_refl eq_refl eq_refl) as (Hret & _).
  exact Hret.
Defined.

(** [Send_transmit_failure] on a stream that refuses the send. *)
Lemma Send_transmit_failure_witness :
  returned
    (Send {| stream := {| calls := []; inbox := [Deliver (chunk "He" 0)];
                          sendErrs := [Some (errorString "broken pipe")];
                          closeErr := None |};
             apiKey := "lv_key"; done := false |} "hi" recorder [])
  = Some (Err (wrapError "failed to send message: " (errorString "broken pipe")))
  /\ inbox (stream (session
       (Send {| stream := {| calls := []; inbox := [Deliver (chunk "He" 0)];
                             sendErrs := [Some (errorString "broken pipe")];
                             closeErr := None |};
                apiKey := "lv_key"; done := false |} "hi" recorder [])))
     = [Deliver (chunk "He" 0)].
Proof.
  destruct (Send_transmit_failure recorder
              {| stream := {| calls := []; inbox := [Deliver (chunk "He" 0)];
                              sendErrs := [Some (errorString "broken pipe")];
                              closeErr := None |};
                 apiKey := "lv_key"; done := false |}
              "hi" [] (errorString "broken pipe") eq_refl eq_refl)
    as (Hret & _ & _ & Hin & _).
  split; assumption.
Defined.

(** [Send_two_turns] on a stream that carries two answers. *)
Lemma Send_two_turns_witness :
  returned (Send (openSession [chunk "one" 0; completion "one";
                               chunk "two" 0; completion "two"])
              "first" recorder [])
  = Some (Ok (responseOf (completionResponse "one")))
  /\ returned
       (Send (session (Send (openSession [chunk "one" 0; completion "one";
                                          chunk "two" 0; completion "two"])
                         "first" recorder []))
          "second" recorder
          (world (Send (openSession [chunk "one" 0; completion "one";
                                     chunk "two" 0; completion "two"])
                    "first" recorder [])))
     = Some (Ok (responseOf (completionResponse "two"))).
Proof.
  destruct (Send_two_turns recorder
              (openSession [chunk "one" 0; completion "one";
                            chunk "two" 0; completion "two"])
              "first" "second" []
              [chunkOf (chunkResponse "one" 0)]
              [chunkOf (chunkResponse "one" 0); chunkOf (chunkResponse "two" 0)]
              [chunk "one" 0] [chunk "two" 0]
              (completionResponse "one") (completionResponse "two") []
              [chunkOf (chunkResponse "one" 0)] [chunkOf (chunkResponse "two" 0)]
              eq_refl eq_refl eq_refl eq_refl eq_refl eq_refl eq_refl)
    as (H1 & H2 & _).
  split; assumption.
Defined.

(** [connect_failure_creates_nothing] on a network that refuses the dial. *)
Lemma connect_failure_creates_nothing_witness :
  snd (@connect exampleLib addressedClient refusingNet)
  = Some (wrapError "failed to connect to LLM server at llm.levee.test:9889: "
            (errorString "connection refused"))
  /\ conn (fst (fst (@connect exampleLib addressedClient refusingNet))) = None
  /\ conns (snd (fst (@connect exampleLib addressedClient refusingNet))) = 0.
Proof.
  split; [reflexivity|].
  destruct (@connect_failure_creates_nothing exampleLib addressedClient
              (fst (fst (@connect exampleLib addressedClient refusingNet)))
              refusingNet
              (snd (fst (@connect exampleLib addressedClient refusingNet)))
              _ eq_refl) as (_ & Hconn & Hconns & _).
  split; assumption.
Defined.

(** [connect_explicit_address] on a client with its address set. *)
Lemma connect_explicit_address_witness :
  grpcAddr addressedClient <> ""
  /\ lookups (snd (fst (@connect exampleLib addressedClient (exampleNet [])))) = []
  /\ dials (snd (fst (@connect exampleLib addressedClient (exampleNet []))))
     = [("llm.levee.test:9889", true)].
Proof.
  split; [discriminate|].
  destruct (@connect_explicit_address exampleLib addressedClient (exampleNet [])
              eq_refl ltac:(discriminate)) as (Hl & Hd & _).
  split; assumption.
Defined.

(** [connect_discovers] on a client that has to look its address up. *)
Lemma connect_discovers_witness :
  grpcAddr exampleClient = ""
  /\ lookups (snd (fst (@connect exampleLib exampleClient (exampleNet []))))
     = [("https://levee.test/sdk/v1/llm/config", "lv_key")]
  /\ dials (snd (fst (@connect exampleLib exampleClient (exampleNet []))))
     = [("levee.test:9889", true)]
  /\ grpcAddr (fst (fst (@connect exampleLib exampleClient (exampleNet []))))
     = "levee.test:9889".
Proof.
  split; [reflexivity|].
  destruct (@connect_discovers exampleLib exampleClient (exampleNet []) "{}"
              "levee.test"
              {| Available := true; GRPCPort := 9889%Z;
                 DefaultProvider := "anthropic";
                 ConfiguredProviders := ["anthropic"] |}
              eq_refl eq_refl ltac:(discriminate) eq_refl eq_refl eq_refl eq_refl
              eq_refl) as (Hl & Hd & Ha & _).
  repeat split; assumption.
Defined.

(** [connect_unavailable] on an account without the service. *)
Lemma connect_unavailable_witness :
  snd (@connect unavailableLib exampleClient (exampleNet []))
  = Some (errorString "LLM service is not available for this organization")
  /\ dials (snd (fst (@connect unavailableLib exampleClient (exampleNet [])))) = [].
Proof.
  destruct (@connect_unavailable unavailableLib exampleClient (exampleNet []) "{}"
              {| Available := false; GRPCPort := 0%Z;
                 DefaultProvider := ""; ConfiguredProviders := [] |}
              eq_refl eq_refl ltac:(discriminate) eq_refl eq_refl eq_refl eq_refl)
    as (Herr & _ & Hd & _).
  split; assumption.
Defined.

(** [Close_then_connect]: connect, close, connect again. *)
Lemma Close_then_connect_witness :
  snd connectedOnce = None
  /\ conn (fst (fst connectedOnce)) = Some 0
  /\ conn (fst closedAgain) = None
  /\ conn (fst (fst (@connect exampleLib (fst closedAgain) (snd closedAgain))))
     = Some 1.
Proof.
  split; [reflexivity|].
  destruct (@Close_then_connect exampleLib exampleClient
              (fst (fst connectedOnce)) (exampleNet []) (snd (fst connectedOnce))
              eq_refl eq_refl eq_refl) as (H1 & H2 & _ & _ & _ & Hconn & _).
  repeat split; assumption.
Defined.

(** [run_keeps_wellFormed] on a socket that sends a message too early,
    starts, starts again and sends a message. *)
Lemma run_keeps_wellFormed_witness :
  wellFormed acceptedSocket
  /\ wellFormed (fst (@run exampleLib acceptedSocket (exampleNet [])
                        ["message Hello"; "start be brief"; "start again";
                         "message Hello"]))
  /\ readers (fst (@run exampleLib acceptedSocket (exampleNet [])
                     ["message Hello"; "start be brief"; "start again";
                      "message Hello"]))
     = 1.
Proof.
  assert (H0 : wellFormed acceptedSocket) by (split; [discriminate | reflexivity]).
  split; [exact H0|].
  split; [|reflexivity].
  exact (@run_keeps_wellFormed exampleLib
           ["message Hello"; "start be brief"; "start again"; "message Hello"]
           acceptedSocket (exampleNet []) H0).
Defined.

(** [handleStart_failure] on a network that refuses the dial. *)
Lemma handleStart_failure_witness :
  started acceptedSocket = false
  /\ started (fst (@handleStart exampleLib acceptedSocket refusingNet "be brief"))
     = false
  /\ readers (fst (@handleStart exampleLib acceptedSocket refusingNet "be brief"))
     = readers acceptedSocket
  /\ ws_conn (fst (@handleStart exampleLib acceptedSocket refusingNet "be brief"))
     = [errorFrame "connection_failed"
          "failed to connect to LLM server at levee.test:9889: connection refused"
          true].
Proof.
  split; [reflexivity|].
  destruct (@handleStart_failure exampleLib acceptedSocket refusingNet "be brief"
              eq_refl)
    as [(Hstarted & _) | (Hstarted & Hreaders & _)].
  - vm_compute in Hstarted. discriminate Hstarted.
  - split; [exact Hstarted|]. split; [exact Hreaders|]. reflexivity.
Defined.

(** [readGRPCResponses_forwards_all] on a chunk, a completion, an error
    event and one more chunk: four frames. *)
Lemma readGRPCResponses_forwards_all_witness :
  ws_stream (startedSocket [chunk "a" 0; completion "a";
                            backendError "rate_limit" "slow down"; chunk "b" 1])
  = Some (freshStream [chunk "a" 0; completion "a";
                       backendError "rate_limit" "slow down"; chunk "b" 1])
  /\ exists s',
       readGRPCResponses 5
         (startedSocket [chunk "a" 0; completion "a";
                         backendError "rate_limit" "slow down"; chunk "b" 1])
       = Some s'
       /\ length (ws_conn s') = 4.
Proof.
  split; [reflexivity|].
  destruct (readGRPCResponses_forwards_all
              (startedSocket [chunk "a" 0; completion "a";
                              backendError "rate_limit" "slow down"; chunk "b" 1])
              (freshStream [chunk "a" 0; completion "a";
                            backendError "rate_limit" "slow down"; chunk "b" 1])
              [chunk "a" 0; completion "a";
               backendError "rate_limit" "slow down"; chunk "b" 1]
              eq_refl eq_refl) as (s' & Hrun & _ & Hlen & _).
  exists s'. split; [exact Hrun | exact Hlen].
Defined.

(** [readGRPCResponses_stream_error] on a chunk followed by a broken
    connection. *)
Lemma readGRPCResponses_stream_error_witness :
  exists s',
    readGRPCResponses 3
      {| ws_conn := []; llm := exampleClient;
         ws_stream := Some (failingStream [chunk "a" 0] (errorString "connection reset"));
         started := true; readers := 1 |}
    = Some s'
    /\ ws_conn s'
       = [{| frame_Type := "chunk";
             frame_Data := DataChunk {| WSChunk_Content := "a"; WSChunk_Index := 0%Z |} |};
          errorFrame "stream_error" "connection reset" false].
Proof.
  destruct (readGRPCResponses_stream_error
              {| ws_conn := []; llm := exampleClient;
                 ws_stream := Some (failingStream [chunk "a" 0]
                                      (errorString "connection reset"));
                 started := true; readers := 1 |}
              (failingStream [chunk "a" 0] (errorString "connection reset"))
              [chunk "a" 0] (errorString "connection reset") [] 3
              eq_refl eq_refl ltac:(simpl; lia)) as (s' & Hrun & Hconn & _).
  exists s'. split; [exact Hrun | exact Hconn].
Defined.

(** [extractToken_roundtrip] on an open-tracking path. *)
Lemma extractToken_roundtrip_witness :
  hasByte "/"%char "tok_123" = false
  /\ extractToken "/levee/e/o/tok_123" "/e/o/" = "tok_123".
Proof.
  split; [reflexivity|].
  exact (extractToken_roundtrip "/levee" "/e/o" "tok_123" eq_refl).
Defined.

(** [verifyStripeSignature_exact] on a header with the right signature. *)
Lemma verifyStripeSignature_exact_witness :
  @verifyStripeSignature exampleCrypto "{}" "t=1700000000,v1=whsec:1700000000.{}" "whsec"
  = true
  /\ @verifyStripeSignature exampleCrypto "{}"
       "t=1700000000,v1=stale,v1=whsec:1700000000.{}" "whsec"
     = true.
Proof.
  destruct (@verifyStripeSignature_exact exampleCrypto "{}" "whsec" "1700000000"
              "whsec:1700000000.{}" "stale"
              ltac:(discriminate) ltac:(discriminate) eq_refl eq_refl eq_refl)
    as [H1 H2].
  split; [exact H1 | exact H2].
Defined.

(** [NewLLMClient_addressed] on a plain-text development URL. *)
Lemma NewLLMClient_addressed_witness :
  dials (snd (fst (@connect exampleLib
                     (NewLLMClient "lv_key" "http://localhost:8080"
                        [WithGRPCAddress "localhost:9889"])
                     (exampleNet []))))
  = [("localhost:9889", false)]
  /\ lookups (snd (fst (@connect exampleLib
                          (NewLLMClient "lv_key" "http://localhost:8080"
                             [WithGRPCAddress "localhost:9889"])
                          (exampleNet []))))
     = [].
Proof.
  destruct (@NewLLMClient_addressed exampleLib "lv_key" "http://localhost:8080"
              "localhost:9889" (exampleNet []) ltac:(discriminate))
    as (_ & Hl & Hd).
  split; [exact Hd | exact Hl].
Defined.

(** [NewLLMClient_trailing_slash] on a URL given with its slash. *)
Lemma NewLLMClient_trailing_slash_witness :
  baseURL (NewLLMClient "lv_key" "https://levee.test/" []) = "https://levee.test"
  /\ lookups (fst (@fetchConfig exampleLib
                     (NewLLMClient "lv_key" "https://levee.test/" []) (exampleNet [])))
     = [("https://levee.test/sdk/v1/llm/config", "lv_key")].
Proof.
  exact (@NewLLMClient_trailing_slash exampleLib "lv_key" "https://levee.test"
           (exampleNet []) ltac:(discriminate) eq_refl).
Defined.

(** [NewChatSession_start] on the example request: three messages go out,
    in order. *)
Lemma NewChatSession_start_witness :
  exists s,
    snd (@NewChatSession exampleLib exampleClient (exampleNet [chunk "ok" 0])
           exampleRequest)
    = Ok s
    /\ done s = false
    /\ inbox (stream s) = [Deliver (chunk "ok" 0)]
    /\ transmitted (stream s)
       = [llmpb.ChatRequest_Start
            {| llmpb.start_ApiKey := "lv_key";
               llmpb.start_SystemPrompt := "be brief";
               llmpb.start_Model := "sonnet";
               llmpb.start_MaxTokens := 1024%Z;
               llmpb.start_Temperature := 0.5%float;
               llmpb.start_Messages :=
                 [{| llmpb.msg_Role := "user"; llmpb.msg_Content := "first" |};
                  {| llmpb.msg_Role := "assistant"; llmpb.msg_Content := "reply" |};
                  {| llmpb.msg_Role := "user"; llmpb.msg_Content := "second" |}] |}].
Proof.
  eexists. split; [reflexivity|].
  destruct (@NewChatSession_start exampleLib exampleClient
              (fst (fst (@NewChatSession exampleLib exampleClient
                           (exampleNet [chunk "ok" 0]) exampleRequest)))
              (exampleNet [chunk "ok" 0])
              (snd (fst (@NewChatSession exampleLib exampleClient
                           (exampleNet [chunk "ok" 0]) exampleRequest)))
              exampleRequest _ eq_refl) as (Hdone & _).
  split; [exact Hdone|]. split; reflexivity.
Defined.

(** ** The HTTP handlers *)

Section HandlerFacts.
Context {lib : GoLib} {api : ApiJSON} {crypto : GoCrypto}.

(** With a webhook secret configured, a Stripe delivery whose signature
    does not verify is answered 401 and goes nowhere; and whatever the
    handler does forward was a POST whose body it read and, under a secret,
    whose signature verified.  Without a secret every POST is forwarded, its
    signature not looked at. *)
Theorem handleStripeWebhook_guard (c : Client) (cfg : HandlerConfig) (web : Web)
  (r : Request) :
  (forall body,
     Request_Method r = "POST" ->
     Request_Body r = Ok body ->
     StripeWebhookSecret cfg <> "" ->
     verifyStripeSignature body (Request_Header r "Stripe-Signature")
       (StripeWebhookSecret cfg) = false ->
     handleStripeWebhook c cfg web r
     = (web, http_Error "Invalid signature" StatusUnauthorized))
  /\ (web_sent (fst (handleStripeWebhook c cfg web r)) <> web_sent web ->
      exists body,
        Request_Method r = "POST"
        /\ Request_Body r = Ok body
        /\ (StripeWebhookSecret cfg = ""
            \/ verifyStripeSignature body (Request_Header r "Stripe-Signature")
                 (StripeWebhookSecret cfg) = true))
  /\ (forall body,
        Request_Method r = "POST" ->
        Request_Body r = Ok body ->
        StripeWebhookSecret cfg = "" ->
        fst (handleStripeWebhook c cfg web r)
        = fst (ForwardStripeWebhook c web body (Request_Header r "Stripe-Signature"))).
Proof.
  unfold handleStripeWebhook. split; [|split].
  - intros body Hm Hb Hsecret Hbad. apply String.eqb_neq in Hsecret.
    rewrite Hm, Hb, Hsecret, Hbad. reflexivity.
  - destruct (Request_Method r =? "POST")%string eqn:Hm; simpl;
      [|intros H; now elim H].
    apply String.eqb_eq in Hm.
    destruct (Request_Body r) as [body|e]; [|intros H; now elim H].
    destruct (StripeWebhookSecret cfg =? "")%string eqn:Hs; simpl.
    + intros _. exists body. apply String.eqb_eq in Hs. auto.
    + destruct (verifyStripeSignature body _ _) eqn:Hv; simpl;
        [|intros H; now elim H].
      intros _. exists body. auto.
  - intros body Hm Hb Hsecret. rewrite Hm, Hb, Hsecret; simpl.
    destruct (ForwardStripeWebhook c web body _) as [web' [e|]]; reflexivity.
Qed.

(** Where a forwarded webhook goes.  For a client whose base URL ends in
    [/sdk/v1], [ForwardStripeWebhook] calls [httpClient.Do] once, with a POST
    to the base URL without [/sdk/v1], followed by [/webhooks/stripe], with
    the payload as it came and the API key and the signature in its headers.
    It returns nil exactly when [Do] returns a response of status below 400:
    a failure of [Do], or a response of status 400 or more, is an error. *)
Theorem ForwardStripeWebhook_target (key b payload signature : string) (web : Web) :
  http_NewRequest (b ++ "/webhooks/stripe") = None ->
  let c := {| Client_apiKey := key; Client_baseURL := b ++ "/sdk/v1" |} in
  let req := {| hr_method := "POST"; hr_url := b ++ "/webhooks/stripe";
                hr_headers := [("Content-Type", "application/json");
                               ("X-API-Key", key);
                               ("Stripe-Signature", signature)];
                hr_body := RawBody payload |} in
  web_sent (fst (ForwardStripeWebhook c web payload signature))
  = web_sent web ++ [req]
  /\ (snd (ForwardStripeWebhook c web payload signature) = None
      <-> exists resp, web_do web req = Ok resp /\ (StatusCode resp < 400)%Z).
Proof.
  intros Hreq c req. unfold ForwardStripeWebhook.
  subst c. rewrite (webhookBaseURL_suffix key b), Hreq.
  unfold httpClient_Do. cbn [Client_apiKey]. fold req.
  destruct (web_do web req) as [resp|e] eqn:Hdo; simpl.
  - destruct (400 <=? StatusCode resp)%Z eqn:Hs; simpl.
    + split; [reflexivity|]. split; [discriminate|].
      intros (resp' & Hr & Hlt). inversion Hr; subst.
      apply Z.leb_le in Hs. lia.
    + split; [reflexivity|]. split; [|reflexivity].
      intros _. exists resp. split; [reflexivity|].
      apply Z.leb_gt in Hs. exact Hs.
  - split; [reflexivity|]. split; [discriminate|].
    intros (resp' & Hr & _). discriminate.
Qed.

(** The two unsubscribe handlers part ways on failure.  On a GET of an
    unsubscribe link they make the same API call, for the token in the path;
    when that call fails, the handler [RegisterHandlers] mounts answers 500,
    and the exported one redirects to the unsubscribed page as if it had
    worked. *)
Theorem unsubscribe_handlers_differ (c : Client) (cfg : HandlerConfig) (web : Web)
  (r : Request) (mount token : string) :
  Request_Method r = "GET" ->
  Request_PathValue r "token" = "" ->
  Request_Path r = (mount ++ "/e/u/" ++ token)%string ->
  token <> "" ->
  hasByte "/"%char token = false ->
  fst (handleUnsubscribe c cfg web r) = fst (RecordUnsubscribe c web token)
  /\ fst (HandleUnsubscribe c cfg web r) = fst (RecordUnsubscribe c web token)
  /\ snd (HandleUnsubscribe c cfg web r)
     = http_Redirect (UnsubscribeRedirect cfg) StatusTemporaryRedirect
  /\ snd (handleUnsubscribe c cfg web r)
     = match snd (RecordUnsubscribe c web token) with
       | Some _ => http_Error "Failed to unsubscribe" StatusInternalServerError
       | None => http_Redirect (UnsubscribeRedirect cfg) StatusTemporaryRedirect
       end.
Proof.
  intros Hm Hpv Hpath Htoken Hslash.
  assert (Hext : extractToken (Request_Path r) "/e/u/" = token).
  { rewrite Hpath. exact (extractToken_path mount "/e/u" token Hslash). }
  apply String.eqb_neq in Htoken.
  unfold handleUnsubscribe, HandleUnsubscribe, getToken.
  rewrite Hm, Hpv, Hext; simpl. rewrite !Htoken.
  destruct (RecordUnsubscribe c web token) as [web' [e|]]; simpl; now repeat split.
Qed.

End HandlerFacts.

(** [handleStripeWebhook_guard] under the secret [whsec]: a delivery signed
    with another secret is answered 401 and nothing is sent on. *)
Lemma handleStripeWebhook_guard_witness :
  @verifyStripeSignature exampleCrypto "{}"
    (Request_Header (stripeDelivery "t=1700000000,v1=other:1700000000.{}")
       "Stripe-Signature") "whsec"
  = false
  /\ @handleStripeWebhook exampleLib exampleCrypto exampleSDK
       (NewHandlerConfig [WithStripeWebhookSecret "whsec"]) (exampleWeb 200)
       (stripeDelivery "t=1700000000,v1=other:1700000000.{}")
     = (exampleWeb 200, http_Error "Invalid signature" StatusUnauthorized).
Proof.
  split; [reflexivity|].
  destruct (@handleStripeWebhook_guard exampleLib exampleCrypto exampleSDK
              (NewHandlerConfig [WithStripeWebhookSecret "whsec"]) (exampleWeb 200)
              (stripeDelivery "t=1700000000,v1=other:1700000000.{}"))
    as (Hbad & _).
  exact (Hbad "{}" eq_refl eq_refl ltac:(discriminate) eq_refl).
Defined.

(** [ForwardStripeWebhook_target] for the example client. *)
Lemma ForwardStripeWebhook_target_witness :
  map hr_url
    (web_sent (fst (@ForwardStripeWebhook exampleLib exampleSDK (exampleWeb 200)
                      "{}" "t=1,v1=abc")))
  = ["https://levee.test/webhooks/stripe"]
  /\ snd (@ForwardStripeWebhook exampleLib exampleSDK (exampleWeb 200)
            "{}" "t=1,v1=abc")
     = None.
Proof.
  destruct (@ForwardStripeWebhook_target exampleLib "lv_key" "https://levee.test"
              "{}" "t=1,v1=abc" (exampleWeb 200) eq_refl) as (Hsent & Hok).
  split.
  - change exampleSDK
      with {| Client_apiKey := "lv_key";
              Client_baseURL := "https://levee.test" ++ "/sdk/v1" |}.
    rewrite Hsent. reflexivity.
  - apply Hok. eexists. split; [reflexivity|]. simpl. lia.
Defined.

(** [unsubscribe_handlers_differ] when the API answers 500. *)
Lemma unsubscribe_handlers_differ_witness :
  snd (@RecordUnsubscribe exampleLib exampleApi exampleSDK (exampleWeb 500) "tok_123")
  = Some (errorString "API error: gone")
  /\ snd (@handleUnsubscribe exampleLib exampleApi exampleSDK (NewHandlerConfig [])
            (exampleWeb 500) unsubscribeLink)
     = http_Error "Failed to unsubscribe" StatusInternalServerError
  /\ snd (@HandleUnsubscribe exampleLib exampleApi exampleSDK (NewHandlerConfig [])
            (exampleWeb 500) unsubscribeLink)
     = http_Redirect "/unsubscribed" StatusTemporaryRedirect.
Proof.
  split; [reflexivity|].
  destruct (@unsubscribe_handlers_differ exampleLib exampleApi exampleSDK
              (NewHandlerConfig []) (exampleWeb 500) unsubscribeLink
              "/levee" "tok_123" eq_refl eq_refl eq_refl
              ltac:(discriminate) eq_refl) as (_ & _ & Hexported & Hmounted).
  split; [rewrite Hmounted; reflexivity | exact Hexported].
Defined.
